(** * WaterButler: the path model, the OwnCloud metadata and the Dryad provider

    A shallow embedding of
    - [waterbutler/core/utils.py] (class [WaterButlerPath]),
    - [waterbutler/providers/owncloud/metadata.py],
    - [waterbutler/providers/dryad/provider.py],
    and the properties of the specification that concern them.

    Python strings are [string]s (sequences of one-byte characters), Python
    lists are [list]s, dictionaries are [gmap]s, and a raised exception is the
    left summand of a sum type.  Coroutines that talk to the network run in a
    state-and-error monad over the log of the requests made so far and the
    store of the Path objects that are passed by reference. *)

From Stdlib Require Import Ascii String ZArith Lia Bool.
From Stdlib Require Import DecimalString DecimalPos.
From stdpp Require Import base option list gmap strings.

Local Open Scope bool_scope.

(* ===================================================================== *)
(** ** Python's [str] methods used by the sources *)
(* ===================================================================== *)

Module Str.

(** [sub * n] *)
Fixpoint repeat (sub : string) (n : nat) : string :=
  match n with
  | O => ""
  | S n' => sub +:+ repeat sub n'
  end.

(** [s.startswith(pre)] *)
Definition startswith (pre s : string) : bool := String.prefix pre s.

(** [s.endswith(suf)]: some suffix of [s] is [suf]. *)
Fixpoint endswith (suf s : string) : bool :=
  String.eqb s suf ||
  match s with
  | EmptyString => false
  | String _ s' => endswith suf s'
  end.

(** [sub in s] *)
Fixpoint contains (sub s : string) : bool :=
  String.prefix sub s ||
  match s with
  | EmptyString => false
  | String _ s' => contains sub s'
  end.

(** [s.lstrip(chars)], the set [chars] given by its membership test. *)
Fixpoint lstrip_by (p : ascii -> bool) (s : string) : string :=
  match s with
  | EmptyString => EmptyString
  | String a s' => if p a then lstrip_by p s' else s
  end.

(** [s.rstrip(chars)] *)
Fixpoint rstrip_by (p : ascii -> bool) (s : string) : string :=
  match s with
  | EmptyString => EmptyString
  | String a s' =>
      let r := rstrip_by p s' in
      if p a && String.eqb r "" then "" else String a r
  end.

(** [s.lstrip(c)] and [s.rstrip(c)] for a one-character set [c]. *)
Definition lstrip (c : ascii) (s : string) : string :=
  lstrip_by (fun a => Ascii.eqb a c) s.

Definition rstrip (c : ascii) (s : string) : string :=
  rstrip_by (fun a => Ascii.eqb a c) s.

(** [s.strip(c)] *)
Definition strip (c : ascii) (s : string) : string := lstrip c (rstrip c s).

(** [s.split(sep)] for a one-character separator: one more piece than there
    are separators, so [''.split('/') == ['']]. *)
Fixpoint split (sep : ascii) (s : string) : list string :=
  match s with
  | EmptyString => [EmptyString]
  | String a s' =>
      if Ascii.eqb a sep then EmptyString :: split sep s'
      else match split sep s' with
           | [] => [String a EmptyString]
           | w :: ws => String a w :: ws
           end
  end.

(** [sep.join(l)] *)
Fixpoint join (sep : string) (l : list string) : string :=
  match l with
  | [] => ""
  | [w] => w
  | w :: ws => w +:+ sep +:+ join sep ws
  end.

(** [l[:-1]] *)
Definition but_last {A} (l : list A) : list A := removelast l.

(** [s[n:]] *)
Fixpoint from (n : nat) (s : string) : string :=
  match n, s with
  | O, _ => s
  | S n', String _ s' => from n' s'
  | S _, EmptyString => EmptyString
  end.

(** What [str.isspace] accepts among one-byte characters. *)
Definition is_space (a : ascii) : bool :=
  let n := nat_of_ascii a in
  Nat.eqb n 32 || (Nat.leb 9 n && Nat.leb n 13) || (Nat.leb 28 n && Nat.leb n 31).

Definition is_digit (a : ascii) : bool :=
  let n := nat_of_ascii a in Nat.leb 48 n && Nat.leb n 57.

(** [s.strip()] *)
Definition strip_space (s : string) : string :=
  lstrip_by is_space (rstrip_by is_space s).

End Str.

(* ===================================================================== *)
(** ** [os.path] on POSIX ([posixpath.py] of the Python standard library) *)
(* ===================================================================== *)

Module posixpath.

Definition isabs (s : string) : bool := Str.startswith "/" s.

(** [join(a, b)] for two components. *)
Definition join (a b : string) : string :=
  if Str.startswith "/" b then b
  else if String.eqb a "" || Str.endswith "/" a then a +:+ b
  else a +:+ "/" +:+ b.

(** The body of the loop of [normpath]: [new_comps] is the stack of the
    components kept so far. *)
Definition normpath_step (initial_slashes : nat) (new_comps : list string)
    (comp : string) : list string :=
  if String.eqb comp "" || String.eqb comp "." then new_comps
  else if negb (String.eqb comp "..")
          || (Nat.eqb initial_slashes 0 && bool_decide (new_comps = []))
          || (negb (bool_decide (new_comps = []))
              && bool_decide (last new_comps = Some ".."))
       then new_comps ++ [comp]
  else if negb (bool_decide (new_comps = [])) then removelast new_comps
  else new_comps.

Definition initial_slashes (path : string) : nat :=
  if Str.startswith "/" path then
    if Str.startswith "//" path && negb (Str.startswith "///" path) then 2
    else 1
  else 0.

Definition normpath (path : string) : string :=
  if String.eqb path "" then "."
  else
    let comps := Str.split "/" path in
    let new_comps := fold_left (normpath_step (initial_slashes path)) comps [] in
    let path' := Str.repeat "/" (initial_slashes path) +:+ Str.join "/" new_comps in
    if String.eqb path' "" then "." else path'.

(** [abspath(path)], in a process whose working directory is [cwd]. *)
Definition abspath (cwd path : string) : string :=
  if isabs path then normpath path else normpath (join cwd path).

End posixpath.

(* ===================================================================== *)
(** ** Exceptions *)
(* ===================================================================== *)

(** The provider object: [BaseProvider.__init__] keeps the three arguments,
    [DryadProvider.__init__] adds [doi = dryad_settings['doi']]. *)
Record DryadProvider := {
  auth : gmap string string;
  credentials : gmap string string;
  settings : gmap string string;
  doi : string
}.

Inductive exn : Type :=
| ValueError (msg : string)
| TypeError
| KeyError (key : string)
| IndexError
| AttributeError
| NotFoundError (path : string)
| MetadataError (status : Z)
| DownloadError (status : Z)
| ReadOnlyProviderError (provider : DryadProvider).

(** A computation that returns an [A] or raises. *)
Definition result (A : Type) : Type := exn + A.

(* ===================================================================== *)
(** ** [waterbutler/core/utils.py]: [WaterButlerPath] *)
(* ===================================================================== *)

Module WaterButlerPath.

Record t := {
  _orig_path : string;
  _parts : list string;
  _is_dir : bool;
  _is_root : bool;
  _prefix : bool;
  _suffix : bool;
  _path : string
}.

Definition invalid_path (shown : string) : exn :=
  ValueError ("Invalid path '" +:+ shown +:+ "' specified").

(** The path that [_validate_path] compares with its argument:
    [os.path.abspath(path)], with [/] appended again when the argument ends
    with one and is not the root. *)
Definition absolute_path (cwd path : string) : string :=
  let absolute_path := posixpath.abspath cwd path in
  if negb (String.eqb path "/") && Str.endswith "/" path
  then absolute_path +:+ "/"
  else absolute_path.

Definition _validate_path (cwd path : string) : result unit :=
  if String.eqb path "" then inl (ValueError "Must specify path")
  else if negb (Str.startswith "/" path) then inl (invalid_path path)
  else if Str.contains "//" path then inl (invalid_path path)
  else
    if negb (String.eqb path (absolute_path cwd path))
    then inl (invalid_path (absolute_path cwd path))
    else inr tt.

(** [_format_path] reads [self._prefix] and [self._suffix]. *)
Definition _format_path (prefix suffix : bool) (path : string) : string :=
  let path := if negb prefix then Str.lstrip "/" path else path in
  if negb (String.eqb path "") && negb (String.eqb path "/") then
    if negb suffix then Str.rstrip "/" path else path
  else path.

(** [WaterButlerPath(path, prefix, suffix)]; both options default to [True]. *)
Definition __init__ (cwd path : string) (prefix suffix : bool) : result t :=
  match _validate_path cwd path with
  | inl e => inl e
  | inr _ =>
      inr {| _orig_path := path;
             _parts := Str.split "/" (Str.rstrip "/" path);
             _is_dir := Str.endswith "/" path;
             _is_root := String.eqb path "/";
             _prefix := prefix;
             _suffix := suffix;
             _path := _format_path prefix suffix path |}
  end.

Definition __str__ (self : t) : string := _orig_path self.
Definition path (self : t) : string := _path self.
Definition is_dir (self : t) : bool := _is_dir self.
Definition is_file (self : t) : bool := negb (_is_dir self).
Definition is_root (self : t) : bool := _is_root self.
Definition parts (self : t) : list string := _parts self.

(** [self._parts[-1]]; the list is never empty for a constructed path, an
    empty one would raise [IndexError]. *)
Definition name (self : t) : result string :=
  match last (_parts self) with
  | Some w => inr w
  | None => inl IndexError
  end.

Definition parent (cwd : string) (self : t) : result t :=
  __init__ cwd (Str.join "/" (Str.but_last (_parts self)) +:+ "/")
    (_prefix self) (_suffix self).

End WaterButlerPath.



(* ===================================================================== *)
(** ** Python values, [int] and [str] *)
(* ===================================================================== *)

Inductive pyval : Type :=
| PyNone
| PyStr (s : string)
| PyInt (z : Z).

(** The digits of a decimal literal; a single [_] may stand between two
    digits.  [seen] says that the character before was a digit. *)
Fixpoint digits_value (acc : Z) (seen : bool) (s : string) : option Z :=
  match s with
  | EmptyString => if seen then Some acc else None
  | String a s' =>
      if Str.is_digit a
      then digits_value (10 * acc + Z.of_nat (nat_of_ascii a - 48)) true s'
      else if Ascii.eqb a "_" && seen
      then match s' with
           | String b _ => if Str.is_digit b then digits_value acc false s' else None
           | EmptyString => None
           end
      else None
  end.

(** [int(s)] for a string, base 10: surrounding white space, an optional
    sign, digits. *)
Definition int_of_string (s : string) : option Z :=
  match Str.strip_space s with
  | String "+" d => digits_value 0 false d
  | String "-" d => Z.opp <$> digits_value 0 false d
  | d => digits_value 0 false d
  end.

(** [int(v)] *)
Definition py_int (v : pyval) : result Z :=
  match v with
  | PyInt z => inr z
  | PyStr s =>
      match int_of_string s with
      | Some z => inr z
      | None => inl (ValueError ("invalid literal for int() with base 10: '" +:+ s +:+ "'"))
      end
  | PyNone => inl TypeError
  end.

(** [str(n)] for an integer. *)
Definition str_of_int (z : Z) : string := NilZero.string_of_int (Z.to_int z).

(** [str(v)] *)
Definition py_str (v : pyval) : string :=
  match v with
  | PyNone => "None"
  | PyStr s => s
  | PyInt z => str_of_int z
  end.

(* ===================================================================== *)
(** ** [waterbutler/providers/owncloud/metadata.py] *)
(* ===================================================================== *)

Module owncloud.

(** The two concrete classes; both inherit every property of
    [BaseOwnCloudMetadata] and add [content_type]. *)
Inductive kind := file | folder.

Record BaseOwnCloudMetadata := {
  cls : kind;
  attributes : gmap string pyval;
  _folder : string;
  _href : string
}.

(** [attributes=None] by default, and [self.attributes = attributes or {}]. *)
Definition __init__ (c : kind) (href folder : string)
    (attributes : option (gmap string pyval)) : BaseOwnCloudMetadata :=
  {| cls := c; attributes := default ∅ attributes;
     _folder := folder; _href := href |}.

Definition OwnCloudFileMetadata := __init__ file.
Definition OwnCloudFolderMetadata := __init__ folder.

Definition provider (self : BaseOwnCloudMetadata) : string := "owncloud".

Definition name (self : BaseOwnCloudMetadata) : result string :=
  match last (Str.split "/" (Str.strip "/" (_href self))) with
  | Some w => inr w
  | None => inl IndexError
  end.

Definition path (self : BaseOwnCloudMetadata) : result string :=
  let path := Str.from (String.length (_folder self)) (_href self) in
  match path with
  | EmptyString => inl IndexError
  | String a _ => if negb (Ascii.eqb a "/") then inr ("/" +:+ path) else inr path
  end.

Definition size (self : BaseOwnCloudMetadata) : result pyval :=
  match attributes self !! "{DAV:}getcontentlength" with
  | Some v =>
      match py_int v with
      | inl e => inl e
      | inr n => inr (PyStr (str_of_int n))
      end
  | None => inr PyNone
  end.

Definition etag (self : BaseOwnCloudMetadata) : result string :=
  match attributes self !! "{DAV:}getetag" with
  | Some v => inr (py_str v)
  | None => inl (KeyError "{DAV:}getetag")
  end.

Definition modified (self : BaseOwnCloudMetadata) : result pyval :=
  match attributes self !! "{DAV:}getlastmodified" with
  | Some v => inr v
  | None => inl (KeyError "{DAV:}getlastmodified")
  end.

Definition content_type (self : BaseOwnCloudMetadata) : pyval :=
  match attributes self !! "{DAV:}getcontenttype" with
  | Some v => PyStr (py_str v)
  | None =>
      match cls self with
      | file => PyNone
      | folder => PyStr "httpd/unix-directory"
      end
  end.

End owncloud.

(* ===================================================================== *)
(** ** Coroutines: the requests made so far and the Path objects *)
(* ===================================================================== *)

Record request := { req_method : string; req_url : string }.

Record response := {
  status : Z;
  body : string;
  headers : gmap string string
}.

(** A reference to a Path object. *)
Definition ref := nat.

Record world := {
  requests : list request;
  paths : gmap ref WaterButlerPath.t
}.

Definition coroutine (A : Type) : Type := world -> result A * world.

Definition ret {A} (a : A) : coroutine A := fun w => (inr a, w).

Definition raise {A} (e : exn) : coroutine A := fun w => (inl e, w).

Definition bind {A B} (c : coroutine A) (k : A -> coroutine B) : coroutine B :=
  fun w =>
    match c w with
    | (inl e, w') => (inl e, w')
    | (inr a, w') => k a w'
    end.

(** A call that returns or raises without suspending. *)
Definition lift {A} (r : result A) : coroutine A := fun w => (r, w).

Notation "'let*' x ':=' c 'in' k" := (bind c (fun x => k))
  (at level 10, x name, c at level 100, k at level 200).

(** [l[i]] *)
Definition index {A} (l : list A) (i : nat) : coroutine A :=
  match l !! i with
  | Some a => ret a
  | None => raise IndexError
  end.

(** Reading the object behind a reference; a name bound to no Path has no
    attribute to read. *)
Definition deref (l : ref) : coroutine WaterButlerPath.t :=
  fun w =>
    match paths w !! l with
    | Some p => (inr p, w)
    | None => (inl AttributeError, w)
    end.

(** [l[-1]] *)
Definition last_item {A} (l : list A) : coroutine A :=
  match last l with
  | Some a => ret a
  | None => raise IndexError
  end.

(* ===================================================================== *)
(** ** [waterbutler/providers/dryad/provider.py] *)
(* ===================================================================== *)

Module dryad.

(** [streams.ResponseStreamReader(resp, size=..., name=...)] *)
Record ResponseStreamReader := {
  stream_resp : response;
  stream_size : pyval;
  stream_name : string
}.

(** [DryadFileMetadata(metadata_text, doi, file_metadata, file_name)]: the
    four arguments of the constructor. *)
Record DryadFileMetadata := {
  fm_metadata_text : string;
  fm_doi : string;
  fm_file_metadata : string;
  fm_file_name : string
}.

(** What [_do_intra_move_or_copy] asks of the destination provider. *)
Record Provider := {
  provider_upload : ResponseStreamReader -> ref -> coroutine pyval
}.

Section Provider.

(** The working directory of the process, read by [os.path.abspath]. *)
Variable cwd : string.

(** [waterbutler.providers.dryad.settings] *)
Variable DRYAD_META_URL : string.
Variable DYRAD_FILE_URL : string.

(** The server: its answer to a request, given the requests before it. *)
Variable transport : list request -> request -> response.

(** [cgi.parse_header] of the Python standard library. *)
Variable parse_header : string -> string * gmap string string.

(** The [name] and [size] properties of [DryadFileMetadata]. *)
Variable file_metadata_name : DryadFileMetadata -> string.
Variable file_metadata_size : DryadFileMetadata -> pyval.

(** Modelled from the spec: [BaseProvider.make_request] is not among the
    sources.  It issues the request and, as the error taxonomy of the spec
    says, raises the [throws] error carrying the reported status when the
    response is not of an expected class. *)
Definition make_request (method url : string) (expects : list Z)
    (throws : Z -> exn) : coroutine response :=
  fun w =>
    let rq := {| req_method := method; req_url := url |} in
    let resp := transport (requests w) rq in
    let w' := {| requests := requests w ++ [rq]; paths := paths w |} in
    if bool_decide (status resp ∈ expects) then (inr resp, w')
    else (inl (throws (status resp)), w').

(** Modelled from the spec: the provider imports [WaterButlerPath] from
    [waterbutler.core.path], which is not among the sources; the Path Model
    of the spec is the class of [core/utils.py], used here, and the [value]
    of a part is the segment itself. *)
Definition value (part : string) : string := part.

(** Modelled from the spec: [rename] belongs to the same missing module.  The
    spec says that it renames the path in place: the object behind the
    reference gets the new name as its last part, the one [name] reads. *)
Definition rename_parts (name : string) (p : WaterButlerPath.t) : WaterButlerPath.t :=
  {| WaterButlerPath._orig_path := WaterButlerPath._orig_path p;
     WaterButlerPath._parts := Str.but_last (WaterButlerPath._parts p) ++ [name];
     WaterButlerPath._is_dir := WaterButlerPath._is_dir p;
     WaterButlerPath._is_root := WaterButlerPath._is_root p;
     WaterButlerPath._prefix := WaterButlerPath._prefix p;
     WaterButlerPath._suffix := WaterButlerPath._suffix p;
     WaterButlerPath._path := WaterButlerPath._path p |}.

Definition rename (l : ref) (name : string) : coroutine unit :=
  fun w =>
    match paths w !! l with
    | Some p =>
        (inr tt, {| requests := requests w;
                    paths := <[l := rename_parts name p]> (paths w) |})
    | None => (inl AttributeError, w)
    end.

Definition _file_metadata (self : DryadProvider) (path : string)
    : coroutine DryadFileMetadata :=
  let* metadata_resp :=
    make_request "GET" (DRYAD_META_URL +:+ Str.strip "/" path)
      [200; 206]%Z MetadataError in
  let* file_metadata_resp :=
    make_request "GET" (DYRAD_FILE_URL +:+ Str.strip "/" path +:+ "/bitstream")
      [200; 206]%Z MetadataError in
  let* file_stream :=
    make_request "GET" (DRYAD_META_URL +:+ Str.strip "/" path +:+ "/bitstream")
      [200; 206]%Z DownloadError in
  let params :=
    snd (parse_header (default "" (headers file_stream !! "Content-Disposition"))) in
  match params !! "filename" with
  | None => raise (KeyError "filename")
  | Some file_name =>
      ret {| fm_metadata_text := body metadata_resp;
             fm_doi := "doi:10.5061/dryad." +:+ Str.strip "/" path;
             fm_file_metadata := body file_metadata_resp;
             fm_file_name := file_name |}
  end.

Definition validate_path (self : DryadProvider) (path : string)
    : coroutine WaterButlerPath.t :=
  let* wbpath := lift (WaterButlerPath.__init__ cwd path true true) in
  if WaterButlerPath.is_root wbpath then ret wbpath
  else if Nat.eqb (length (WaterButlerPath.parts wbpath)) 2
          && negb (WaterButlerPath.is_dir wbpath)
  then raise (NotFoundError path)
  else if Nat.eqb (length (WaterButlerPath.parts wbpath)) 3
          && negb (WaterButlerPath.is_file wbpath)
  then raise (NotFoundError path)
  else ret wbpath.

Definition validate_v1_path (self : DryadProvider) (path : string)
    : coroutine WaterButlerPath.t :=
  let* wbpath := validate_path self path in
  if WaterButlerPath.is_root wbpath then ret wbpath
  else
    let* part1 := index (WaterButlerPath.parts wbpath) 1 in
    let full_url := DRYAD_META_URL +:+ value part1 in
    let* full_url :=
      (if WaterButlerPath.is_file wbpath
       then let* part2 := index (WaterButlerPath.parts wbpath) 2 in
            ret (full_url +:+ "/" +:+ value part2)
       else ret full_url) in
    let* resp := make_request "GET" full_url [200; 404]%Z MetadataError in
    if Z.eqb (status resp) 404 then raise (NotFoundError path)
    else ret wbpath.


Definition can_intra_copy (self : DryadProvider) (other : Provider)
    (path : option ref) : bool := true.

Definition _do_intra_move_or_copy (self : DryadProvider)
    (dest_provider : Provider) (src_path dest_path : ref) : coroutine pyval :=
  let* src := deref src_path in
  let* resp :=
    make_request "GET"
      (DRYAD_META_URL +:+ Str.strip "/" (WaterButlerPath.path src) +:+ "/bitstream")
      [200; 206]%Z DownloadError in
  let* src := deref src_path in
  let* file_metadata := _file_metadata self (WaterButlerPath.path src) in
  let download_stream :=
    {| stream_resp := resp;
       stream_size := file_metadata_size file_metadata;
       stream_name := file_metadata_name file_metadata |} in
  let* _ := rename dest_path (file_metadata_name file_metadata) in
  provider_upload dest_provider download_stream dest_path.

Definition intra_copy (self : DryadProvider) (dest_provider : Provider)
    (src_path dest_path : ref) : coroutine pyval :=
  _do_intra_move_or_copy self dest_provider src_path dest_path.



Definition can_duplicate_names (self : DryadProvider) : bool := false.

(** [DryadProvider(auth, credentials, dryad_settings)]: the constructor reads
    [dryad_settings['doi']]. *)
Definition __init__ (auth credentials dryad_settings : gmap string string)
    : result DryadProvider :=
  match dryad_settings !! "doi" with
  | Some d =>
      inr {| auth := auth; credentials := credentials;
             settings := dryad_settings; doi := d |}
  | None => inl (KeyError "doi")
  end.

(** [DryadPackageMetadata(body_text, doi)]: the two arguments of the
    constructor. *)
Record DryadPackageMetadata := {
  pm_body_text : string;
  pm_doi : string
}.

(** The [file_parts] property of [DryadPackageMetadata]: the identifiers of
    the files of the package. *)
Variable file_parts : DryadPackageMetadata -> list string.

Definition _package_metadata (self : DryadProvider)
    : coroutine DryadPackageMetadata :=
  let* number := last_item (Str.split "." (doi self)) in
  let* resp :=
    make_request "GET" (DRYAD_META_URL +:+ number) [200; 206]%Z MetadataError in
  ret {| pm_body_text := body resp; pm_doi := doi self |}.

(** What [metadata] returns: the list of the one package for the root, the
    metadata of a file, or the list of the metadata of the files of the
    package. *)
Inductive metadata_result : Type :=
| PackageList (l : list DryadPackageMetadata)
| FileMetadata (m : DryadFileMetadata)
| Children (l : list DryadFileMetadata).

(** The loop of [metadata] over [package.file_parts]: [children] holds the
    metadata appended so far. *)
Fixpoint metadata_children (self : DryadProvider) (parts : list string)
    (children : list DryadFileMetadata) : coroutine (list DryadFileMetadata) :=
  match parts with
  | [] => ret children
  | child :: rest =>
      let* child_doi := last_item (Str.split "." child) in
      let* m := _file_metadata self child_doi in
      metadata_children self rest (children ++ [m])
  end.

Definition metadata (self : DryadProvider) (path : WaterButlerPath.t)
    : coroutine metadata_result :=
  let* package := _package_metadata self in
  if String.eqb (WaterButlerPath.__str__ path) "/" then ret (PackageList [package])
  else if negb (WaterButlerPath.is_dir path)
  then let* m := _file_metadata self (WaterButlerPath.path path) in
       ret (FileMetadata m)
  else let* l := metadata_children self (file_parts package) [] in
       ret (Children l).

Definition download (self : DryadProvider) (path : WaterButlerPath.t)
    : coroutine ResponseStreamReader :=
  let* resp :=
    make_request "GET"
      (DRYAD_META_URL +:+ WaterButlerPath.path path +:+ "/bitstream")
      [200; 206]%Z DownloadError in
  let* file_metadata := _file_metadata self (WaterButlerPath.path path) in
  ret {| stream_resp := resp;
         stream_size := file_metadata_size file_metadata;
         stream_name := file_metadata_name file_metadata |}.

End Provider.

End dryad.

(* ===================================================================== *)
(** ** Vocabulary of the statements *)
(* ===================================================================== *)

(** A segment of a valid path: not empty, neither [.] nor [..], and without
    a separator inside. *)
Definition plain (w : string) : Prop :=
  w ≠ "" ∧ w ≠ "." ∧ w ≠ ".." ∧ Str.contains "/" w = false.

(** The string of a path with the segments [segs], a directory when [dir]. *)
Definition of_segments (segs : list string) (dir : bool) : string :=
  "/" +:+ (Str.join "/" segs +:+ (if dir then "/" else "")).

(** The segments of a well-formed path: plain ones, and only a path with a
    segment can carry the trailing separator of a directory. *)
Definition well_formed (segs : list string) (dir : bool) : Prop :=
  Forall plain segs ∧ (dir = true → segs ≠ []).

(** The rule of the two-level name space of Dryad that [validate_path]
    checks: a path of one segment is a directory (a package), a path of two
    segments is a file. *)
Definition depth_rule (p : WaterButlerPath.t) : bool :=
  negb (Nat.eqb (length (WaterButlerPath.parts p)) 2
        && negb (WaterButlerPath.is_dir p))
  && negb (Nat.eqb (length (WaterButlerPath.parts p)) 3
           && negb (WaterButlerPath.is_file p)).

(** The request by which [validate_v1_path] asks the server about a path. *)
Definition lookup (meta_url : string) (p : WaterButlerPath.t) : request :=
  let full_url := meta_url +:+ default "" (WaterButlerPath.parts p !! 1) in
  {| req_method := "GET";
     req_url := if WaterButlerPath.is_file p
                then full_url +:+ "/" +:+ default "" (WaterButlerPath.parts p !! 2)
                else full_url |}.

(** The world after one more request. *)
Definition asked (rq : request) (w : world) : world :=
  {| requests := requests w ++ [rq]; paths := paths w |}.

(** A server that reports every target present, and one that reports every
    target absent. *)
Definition reports_present : list request → request → response :=
  λ _ _, {| status := 200; body := "";
            headers := {[ "Content-Disposition" := "attachment; filename=data.csv" ]} |}.

Definition reports_absent : list request → request → response :=
  λ _ _, {| status := 404; body := ""; headers := ∅ |}.

(** [cgi.parse_header] on the one header line that [reports_present] sends
    and on lines without parameters. *)
Definition parse_header_line (line : string) : string * gmap string string :=
  if String.eqb line "attachment; filename=data.csv"
  then ("attachment", {[ "filename" := "data.csv" ]})
  else (line, ∅).

Definition a_provider : DryadProvider :=
  {| auth := ∅; credentials := ∅;
     settings := {[ "doi" := "doi:10.5061/dryad.4" ]};
     doi := "doi:10.5061/dryad.4" |}.

Definition no_requests : world := {| requests := []; paths := ∅ |}.

(** The path reached by asking [n] times for the parent. *)
Fixpoint ancestor (cwd : string) (n : nat) (p : WaterButlerPath.t)
    : result WaterButlerPath.t :=
  match n with
  | O => inr p
  | S n' =>
      match WaterButlerPath.parent cwd p with
      | inl e => inl e
      | inr q => ancestor cwd n' q
      end
  end.

(** A coroutine that only reads: whatever it returns or raises, it has
    appended at most [n] requests to the log, all of them [GET]s, and has
    left the Path objects as they were. *)
Definition reads {A} (n : nat) (c : coroutine A) : Prop :=
  ∀ w, ∃ new, requests (snd (c w)) = requests w ++ new
              ∧ length new ≤ n
              ∧ Forall (λ rq, req_method rq = "GET") new
              ∧ paths (snd (c w)) = paths w.

(** The same without a bound on the number of requests. *)
Definition reads_only {A} (c : coroutine A) : Prop :=
  ∀ w, ∃ new, requests (snd (c w)) = requests w ++ new
              ∧ Forall (λ rq, req_method rq = "GET") new
              ∧ paths (snd (c w)) = paths w.

(** The last component of a DOI or of the identifier of a file: what follows
    its last dot. *)
Definition number_of (identifier : string) : string :=
  default "" (last (Str.split "." identifier)).

(** The request for the metadata of the package of a provider. *)
Definition package_request (meta_url : string) (self : DryadProvider) : request :=
  {| req_method := "GET"; req_url := meta_url +:+ number_of (doi self) |}.

(** The three requests of [_file_metadata], in the order in which they are
    sent. *)
Definition file_requests (meta_url file_url path : string) : list request :=
  [ {| req_method := "GET"; req_url := meta_url +:+ Str.strip "/" path |};
    {| req_method := "GET";
       req_url := file_url +:+ Str.strip "/" path +:+ "/bitstream" |};
    {| req_method := "GET";
       req_url := meta_url +:+ Str.strip "/" path +:+ "/bitstream" |} ].

(** A server that answers every request with 200 or 206 and with a
    [Content-Disposition] in which [parse_header] finds a file name. *)
Definition serves (transport : list request → request → response)
    (parse_header : string → string * gmap string string) : Prop :=
  ∀ log rq,
    status (transport log rq) ∈ [200; 206]%Z
    ∧ is_Some (snd (parse_header
                      (default "" (headers (transport log rq) !! "Content-Disposition")))
               !! "filename").

(** The requests of the loop of [metadata] over the files of a package. *)
Definition children_requests (meta_url file_url : string) (parts : list string)
    : list request :=
  flat_map (λ child, file_requests meta_url file_url (number_of child)) parts.

(** The first request of [download] for a path; [intra_copy] sends it for the
    stripped path. *)
Definition bitstream_request (meta_url path : string) : request :=
  {| req_method := "GET"; req_url := meta_url +:+ path +:+ "/bitstream" |}.

Ltac ascii_eqb a b :=
  let E := fresh "E" in
  destruct (Ascii.eqb_spec a b) as [E|E]; [try subst|].

Ltac string_eqb s t :=
  let E := fresh "E" in
  destruct (String.eqb_spec s t) as [E|E]; [try subst|].

(* ===================================================================== *)
(** ** Facts about the string methods *)
(* ===================================================================== *)

#[local] Arguments String.append !_ _ : simpl nomatch.

Lemma append_empty_r (s : string) : s +:+ "" = s.
Proof. induction s as [|a s IH]; simpl; [reflexivity | now rewrite IH]. Qed.

Lemma append_assoc (s t u : string) : (s +:+ t) +:+ u = s +:+ (t +:+ u).
Proof. induction s as [|a s IH]; simpl; [reflexivity | now rewrite IH]. Qed.

Lemma append_cons (a : ascii) (s t : string) :
  String a s +:+ t = String a (s +:+ t).
Proof. reflexivity. Qed.

Lemma append_eq_empty (s t : string) : s +:+ t = "" → s = "" ∧ t = "".
Proof. destruct s; simpl; [auto | discriminate]. Qed.

Lemma prefix_empty (s : string) : String.prefix "" s = true.
Proof. destruct s; reflexivity. Qed.

Lemma prefix_cons (a b : ascii) (s1 s2 : string) :
  String.prefix (String a s1) (String b s2)
  = if ascii_dec a b then String.prefix s1 s2 else false.
Proof. reflexivity. Qed.

Lemma contains_cons (sub : string) (a : ascii) (w : string) :
  Str.contains sub (String a w)
  = String.prefix sub (String a w) || Str.contains sub w.
Proof. reflexivity. Qed.

Lemma contains_slash_cons (a : ascii) (w : string) :
  Str.contains "/" (String a w) = Ascii.eqb a "/" || Str.contains "/" w.
Proof.
  rewrite contains_cons, prefix_cons, prefix_empty.
  destruct (ascii_dec "/" a) as [<-|Hne]; [reflexivity|].
  ascii_eqb a "/"%char; [congruence | reflexivity].
Qed.

Lemma startswith_contains (sub s : string) :
  Str.startswith sub s = true → Str.contains sub s = true.
Proof.
  unfold Str.startswith. intros H.
  destruct s; [simpl in *; now rewrite H|].
  rewrite contains_cons, H. reflexivity.
Qed.

Lemma startswith_slash (s : string) :
  Str.startswith "/" s = true → ∃ s', s = String "/" s'.
Proof.
  unfold Str.startswith. destruct s as [|a s]; [discriminate|].
  rewrite prefix_cons.
  destruct (ascii_dec "/" a) as [<-|]; [eauto | discriminate].
Qed.

(** *** [endswith] *)

Lemma endswith_app_slash (s : string) : Str.endswith "/" (s +:+ "/") = true.
Proof.
  induction s as [|a s IH]; [reflexivity|].
  simpl in *. rewrite IH. apply orb_true_r.
Qed.

Lemma endswith_app (x y : string) :
  y ≠ "" → Str.endswith "/" (x +:+ y) = Str.endswith "/" y.
Proof.
  intros Hy. induction x as [|a x IH]; [reflexivity|].
  simpl. rewrite IH.
  destruct (x +:+ y) eqn:Hxy.
  - apply append_eq_empty in Hxy. tauto.
  - destruct (Ascii.eqb a "/"); reflexivity.
Qed.

Lemma endswith_slash_free (w : string) :
  Str.contains "/" w = false → Str.endswith "/" w = false.
Proof.
  induction w as [|a w IH]; [reflexivity|].
  rewrite contains_slash_cons. intros [Ha Hw]%orb_false_elim.
  simpl. rewrite (IH Hw), Ha. reflexivity.
Qed.

(** *** [rstrip] *)

Lemma rstrip_no_trailing (s : string) :
  Str.endswith "/" s = false → Str.rstrip "/" s = s.
Proof.
  unfold Str.rstrip. induction s as [|a s IH]; [reflexivity|].
  simpl. intros [Hhd Htl]%orb_false_elim.
  rewrite (IH Htl). destruct s; [|now rewrite andb_false_r].
  simpl in Hhd. destruct (Ascii.eqb a "/"); [discriminate | reflexivity].
Qed.

Lemma rstrip_app_slash (s : string) :
  Str.rstrip "/" (s +:+ "/") = Str.rstrip "/" s.
Proof.
  unfold Str.rstrip. induction s as [|a s IH]; [reflexivity|].
  simpl. rewrite IH. reflexivity.
Qed.

(** *** [split] and [join] *)

Lemma split_nonempty (c : ascii) (s : string) : Str.split c s ≠ [].
Proof.
  induction s as [|a s IH]; simpl; [discriminate|].
  destruct (Ascii.eqb a c); [discriminate|].
  destruct (Str.split c s); [contradiction | discriminate].
Qed.

Lemma split_slash_free (s : string) :
  Forall (λ w, Str.contains "/" w = false) (Str.split "/" s).
Proof.
  induction s as [|a s IH]; simpl.
  - constructor; [reflexivity | constructor].
  - ascii_eqb a "/"%char.
    + constructor; [reflexivity | assumption].
    + destruct (Str.split "/" s) as [|w ws] eqn:Hs; [now apply split_nonempty in Hs|].
      inversion IH; subst. constructor; [|assumption].
      rewrite contains_slash_cons. apply orb_false_intro; [|assumption].
      now apply Ascii.eqb_neq.
Qed.

Lemma split_app_slash_free (w s : string) :
  Str.contains "/" w = false →
  Str.split "/" (w +:+ String "/" s) = w :: Str.split "/" s.
Proof.
  induction w as [|a w IH]; [reflexivity|].
  rewrite contains_slash_cons. intros [Ha Hw]%orb_false_elim.
  simpl. rewrite Ha, (IH Hw). reflexivity.
Qed.

Lemma split_one_slash_free (w : string) :
  Str.contains "/" w = false → Str.split "/" w = [w].
Proof.
  induction w as [|a w IH]; [reflexivity|].
  rewrite contains_slash_cons. intros [Ha Hw]%orb_false_elim.
  simpl. rewrite Ha, (IH Hw). reflexivity.
Qed.

Lemma join_cons (w v : string) (ws : list string) :
  Str.join "/" (w :: v :: ws) = w +:+ String "/" (Str.join "/" (v :: ws)).
Proof. reflexivity. Qed.

Lemma split_join (segs : list string) :
  segs ≠ [] → Forall (λ w, Str.contains "/" w = false) segs →
  Str.split "/" (Str.join "/" segs) = segs.
Proof.
  induction segs as [|w [|v ws] IH]; intros Hne Hall; [congruence| |].
  - inversion Hall; subst. now apply split_one_slash_free.
  - inversion Hall as [|? ? Hw Hrest]; subst.
    rewrite join_cons, (split_app_slash_free _ _ Hw), IH; [reflexivity|discriminate|assumption].
Qed.

Lemma join_snoc (segs : list string) (w : string) :
  segs ≠ [] → Str.join "/" (segs ++ [w]) = Str.join "/" segs +:+ String "/" w.
Proof.
  induction segs as [|v [|u vs] IH]; intros Hne; [congruence|reflexivity|].
  rewrite <- !app_comm_cons, join_cons, app_comm_cons, IH by discriminate.
  rewrite join_cons, append_assoc. reflexivity.
Qed.

Lemma join_head (w : string) (ws : list string) :
  ∃ rest, Str.join "/" (w :: ws) = w +:+ rest.
Proof.
  destruct ws as [|v ws].
  - exists "". simpl. now rewrite append_empty_r.
  - eexists. apply join_cons.
Qed.

(** *** Plain segments *)

Lemma plain_slash_free (w : string) : plain w → Str.contains "/" w = false.
Proof. intros (_ & _ & _ & H). exact H. Qed.

Lemma plain_first (w : string) :
  plain w → ∃ a r, w = String a r ∧ Ascii.eqb a "/" = false.
Proof.
  intros (Hne & _ & _ & Hsf). destruct w as [|a r]; [congruence|].
  rewrite contains_slash_cons in Hsf. apply orb_false_elim in Hsf as [Ha _].
  eauto.
Qed.

Lemma Forall_plain_slash_free (segs : list string) :
  Forall plain segs → Forall (λ w, Str.contains "/" w = false) segs.
Proof. intros H. eapply Forall_impl; [exact H | apply plain_slash_free]. Qed.

Lemma join_plain_first (w : string) (ws : list string) :
  plain w → ∃ a r, Str.join "/" (w :: ws) = String a r ∧ Ascii.eqb a "/" = false.
Proof.
  intros (a & r & -> & Ha)%plain_first.
  destruct (join_head (String a r) ws) as [rest ->]. simpl. eauto.
Qed.

Lemma endswith_join (segs : list string) :
  segs ≠ [] → Forall plain segs → Str.endswith "/" (Str.join "/" segs) = false.
Proof.
  induction segs as [|w [|v ws] IH]; intros Hne Hall; [congruence| |].
  - inversion Hall; subst. now apply endswith_slash_free, plain_slash_free.
  - inversion Hall as [|? ? Hw Hrest]; subst.
    rewrite join_cons, endswith_app by discriminate.
    inversion Hrest as [|? ? Hv _]; subst.
    destruct (join_plain_first v ws Hv) as (a & r & Hj & Ha).
    specialize (IH ltac:(discriminate) Hrest). rewrite Hj in *.
    change (String "/" (String a r)) with ("/" +:+ String a r).
    rewrite endswith_app by discriminate. exact IH.
Qed.

(** *** No doubled separator *)

Lemma dslash_cons (a : ascii) (s : string) :
  Ascii.eqb a "/" = false →
  Str.contains "//" (String a s) = Str.contains "//" s.
Proof.
  intros Ha. rewrite contains_cons, prefix_cons.
  destruct (ascii_dec "/" a) as [<-|_]; [discriminate | reflexivity].
Qed.

Lemma dslash_slash_cons (a : ascii) (s : string) :
  Ascii.eqb a "/" = false →
  Str.contains "//" (String "/" (String a s)) = Str.contains "//" s.
Proof.
  intros Ha. rewrite contains_cons, !prefix_cons.
  destruct (ascii_dec "/" "/") as [_|Hne]; [|congruence].
  destruct (ascii_dec "/" a) as [<-|_]; [discriminate|].
  now rewrite dslash_cons.
Qed.

Lemma dslash_app (w s : string) :
  Str.contains "/" w = false →
  Str.contains "//" (w +:+ s) = Str.contains "//" s.
Proof.
  induction w as [|a w IH]; [reflexivity|].
  rewrite contains_slash_cons. intros [Ha Hw]%orb_false_elim.
  rewrite append_cons. now rewrite dslash_cons, IH.
Qed.

Lemma dslash_join (segs : list string) (dir : bool) :
  Forall plain segs →
  Str.contains "//" (Str.join "/" segs +:+ (if dir then "/" else "")) = false.
Proof.
  induction segs as [|w [|v ws] IH]; intros Hall.
  - destruct dir; reflexivity.
  - inversion Hall; subst. simpl Str.join.
    rewrite dslash_app by now apply plain_slash_free. destruct dir; reflexivity.
  - inversion Hall as [|? ? Hw Hrest]; subst.
    inversion Hrest as [|? ? Hv _]; subst.
    rewrite join_cons, append_assoc, dslash_app by now apply plain_slash_free.
    specialize (IH Hrest).
    destruct (join_plain_first v ws Hv) as (a & r & Hj & Ha). rewrite Hj in *.
    rewrite !append_cons in *. rewrite dslash_slash_cons by assumption.
    now rewrite dslash_cons in IH.
Qed.

Lemma dslash_of_segments (segs : list string) (dir : bool) :
  well_formed segs dir → Str.contains "//" (of_segments segs dir) = false.
Proof.
  intros [Hall Hdir]. unfold of_segments.
  pose proof (dslash_join segs dir Hall) as Hj.
  destruct segs as [|w ws].
  - destruct dir; [now specialize (Hdir eq_refl) | reflexivity].
  - inversion Hall as [|? ? Hw _]; subst.
    destruct (join_plain_first w ws Hw) as (a & r & Hjoin & Ha). rewrite Hjoin in *.
    rewrite !append_cons in *. change ("" +:+ ?x) with x.
    rewrite dslash_slash_cons by assumption.
    now rewrite dslash_cons in Hj.
Qed.

(* ===================================================================== *)
(** ** [normpath] on absolute paths without a doubled separator *)
(* ===================================================================== *)

Lemma normpath_step_empty (n : nat) (acc : list string) :
  posixpath.normpath_step n acc "" = acc.
Proof. reflexivity. Qed.

Lemma normpath_step_plain (n : nat) (acc : list string) (w : string) :
  plain w → posixpath.normpath_step n acc w = acc ++ [w].
Proof.
  intros (H1 & H2 & H3 & _). unfold posixpath.normpath_step.
  apply String.eqb_neq in H1, H2, H3. rewrite H1, H2, H3. reflexivity.
Qed.

Lemma normpath_fold_plain (n : nat) (l acc : list string) :
  Forall plain l → fold_left (posixpath.normpath_step n) l acc = acc ++ l.
Proof.
  intros Hall. revert acc.
  induction Hall as [|w l Hw _ IH]; intros acc; simpl.
  - now rewrite app_nil_r.
  - rewrite normpath_step_plain by assumption.
    rewrite IH, <- app_assoc. reflexivity.
Qed.

Lemma Forall_removelast {A} (P : A → Prop) (l : list A) :
  Forall P l → Forall P (removelast l).
Proof.
  induction 1 as [|a l Ha Hl IH]; simpl; [constructor|].
  destruct l; [constructor | now constructor].
Qed.

(** With a leading separator the stack never holds anything but plain
    segments: [..] pops and is never pushed. *)
Lemma normpath_step_keeps (n : nat) (acc : list string) (comp : string) :
  Str.contains "/" comp = false → Forall plain acc →
  Forall plain (posixpath.normpath_step (S n) acc comp).
Proof.
  intros Hsf Hacc. unfold posixpath.normpath_step.
  string_eqb comp ""; [assumption|].
  string_eqb comp "."; [assumption|]. simpl orb.
  string_eqb comp "..".
  - simpl negb. simpl andb. rewrite orb_false_l.
    case_bool_decide as Hnil; simpl.
    + assumption.
    + case_bool_decide as Hlast; simpl; [|now apply Forall_removelast].
      apply last_Some in Hlast as [l' ->].
      apply Forall_app in Hacc as [_ Hdd]. inversion Hdd as [|? ? (_ & _ & Hbad & _) _].
      congruence.
  - simpl. apply Forall_app. split; [assumption|].
    constructor; [|constructor]. repeat split; assumption.
Qed.

Lemma normpath_fold_keeps (n : nat) (l acc : list string) :
  Forall (λ w, Str.contains "/" w = false) l → Forall plain acc →
  Forall plain (fold_left (posixpath.normpath_step (S n)) l acc).
Proof.
  intros Hall. revert acc.
  induction Hall as [|w l Hw _ IH]; intros acc Hacc; simpl; [assumption|].
  apply IH. now apply normpath_step_keeps.
Qed.

Lemma startswith_slash_cons (s : string) : Str.startswith "/" (String "/" s) = true.
Proof.
  unfold Str.startswith. rewrite prefix_cons.
  destruct (ascii_dec "/" "/"); [apply prefix_empty | congruence].
Qed.

Lemma initial_slashes_one (p : string) :
  Str.startswith "/" p = true → Str.contains "//" p = false →
  posixpath.initial_slashes p = 1.
Proof.
  intros Hs Hd. unfold posixpath.initial_slashes. rewrite Hs.
  destruct (Str.startswith "//" p) eqn:Hss; [|reflexivity].
  apply startswith_contains in Hss. congruence.
Qed.

(** The result of [normpath] on such a path is made of plain segments. *)
Lemma normpath_shape (p : string) :
  Str.startswith "/" p = true → Str.contains "//" p = false →
  ∃ segs, Forall plain segs ∧ posixpath.normpath p = "/" +:+ Str.join "/" segs.
Proof.
  intros Hs Hd. unfold posixpath.normpath.
  destruct (startswith_slash p Hs) as [p' ->].
  rewrite initial_slashes_one by assumption.
  change (String.eqb (String "/" p') "") with false. cbv iota.
  eexists. split.
  - apply normpath_fold_keeps; [apply split_slash_free | constructor].
  - reflexivity.
Qed.

Lemma split_cons_slash (s : string) :
  Str.split "/" (String "/" s) = "" :: Str.split "/" s.
Proof. reflexivity. Qed.

Lemma split_of_segments (segs : list string) (dir : bool) :
  well_formed segs dir →
  Str.split "/" (of_segments segs dir)
  = "" :: match segs with
          | [] => [""]
          | _ => segs ++ (if dir then [""] else [])
          end.
Proof.
  intros [Hall Hdir]. unfold of_segments.
  change ("/" +:+ ?x) with (String "/" x). rewrite split_cons_slash. f_equal.
  destruct segs as [|w ws].
  - destruct dir; [now specialize (Hdir eq_refl) | reflexivity].
  - apply Forall_plain_slash_free in Hall. destruct dir.
    + rewrite <- join_snoc by discriminate. apply split_join.
      * now destruct ws.
      * apply Forall_app. split; [assumption|]. constructor; [reflexivity|constructor].
    + rewrite append_empty_r, app_nil_r. now apply split_join.
Qed.

Lemma normpath_of_segments (segs : list string) (dir : bool) :
  well_formed segs dir →
  posixpath.normpath (of_segments segs dir) = "/" +:+ Str.join "/" segs.
Proof.
  intros Hwf. unfold posixpath.normpath.
  rewrite initial_slashes_one, split_of_segments;
    [|assumption|apply startswith_slash_cons|now apply dslash_of_segments].
  change (String.eqb (of_segments segs dir) "") with false. cbv iota.
  destruct Hwf as [Hall _].
  assert (fold_left (posixpath.normpath_step 1)
            ("" :: match segs with
                   | [] => [""]
                   | _ => segs ++ (if dir then [""] else [])
                   end) [] = segs) as ->; [|reflexivity].
  simpl fold_left. rewrite normpath_step_empty.
  destruct segs as [|w ws]; [reflexivity|].
  rewrite fold_left_app, (normpath_fold_plain 1 (w :: ws)) by assumption.
  destruct dir; reflexivity.
Qed.

(* ===================================================================== *)
(** ** The strings that [_validate_path] accepts *)
(* ===================================================================== *)

Lemma of_segments_cons (w : string) (ws : list string) (dir : bool) :
  plain w →
  ∃ a r, of_segments (w :: ws) dir = String "/" (String a r)
         ∧ Ascii.eqb a "/" = false.
Proof.
  intros Hw. destruct (join_plain_first w ws Hw) as (a & r & Hj & Ha).
  unfold of_segments. rewrite Hj. eauto.
Qed.

Lemma of_segments_root (segs : list string) (dir : bool) :
  well_formed segs dir →
  String.eqb (of_segments segs dir) "/" = bool_decide (segs = []).
Proof.
  intros [Hall Hdir]. destruct segs as [|w ws].
  - destruct dir; [now specialize (Hdir eq_refl) | reflexivity].
  - inversion Hall as [|? ? Hw _]; subst.
    destruct (of_segments_cons w ws dir Hw) as (a & r & -> & _). reflexivity.
Qed.

Lemma startswith_of_segments (segs : list string) (dir : bool) :
  Str.startswith "/" (of_segments segs dir) = true.
Proof. apply startswith_slash_cons. Qed.

Lemma of_segments_dir (segs : list string) :
  of_segments segs true = ("/" +:+ Str.join "/" segs) +:+ "/".
Proof. unfold of_segments. now rewrite append_assoc. Qed.

Lemma of_segments_file (segs : list string) :
  of_segments segs false = "/" +:+ Str.join "/" segs.
Proof. unfold of_segments. now rewrite append_empty_r. Qed.

Lemma endswith_of_segments (segs : list string) (dir : bool) :
  well_formed segs dir →
  Str.endswith "/" (of_segments segs dir) = dir || bool_decide (segs = []).
Proof.
  intros [Hall Hdir]. destruct dir.
  - rewrite of_segments_dir. apply endswith_app_slash.
  - rewrite of_segments_file. destruct segs as [|w ws]; [reflexivity|].
    inversion Hall as [|? ? Hw _]; subst.
    destruct (join_plain_first w ws Hw) as (a & r & Hj & _).
    rewrite endswith_app by (rewrite Hj; discriminate).
    now apply endswith_join.
Qed.

Lemma absolute_path_of_segments (cwd : string) (segs : list string) (dir : bool) :
  well_formed segs dir →
  WaterButlerPath.absolute_path cwd (of_segments segs dir) = of_segments segs dir.
Proof.
  intros Hwf. unfold WaterButlerPath.absolute_path, posixpath.abspath, posixpath.isabs.
  rewrite startswith_of_segments, normpath_of_segments by assumption.
  rewrite of_segments_root, endswith_of_segments by assumption.
  destruct Hwf as [Hall Hdir]. destruct segs as [|w ws].
  - destruct dir; [now specialize (Hdir eq_refl) | reflexivity].
  - destruct dir; simpl negb; simpl andb; cbv iota.
    + now rewrite of_segments_dir.
    + now rewrite of_segments_file.
Qed.

Lemma validate_of_segments (cwd : string) (segs : list string) (dir : bool) :
  well_formed segs dir →
  WaterButlerPath._validate_path cwd (of_segments segs dir) = inr tt.
Proof.
  intros Hwf. unfold WaterButlerPath._validate_path.
  rewrite startswith_of_segments, dslash_of_segments by assumption.
  rewrite absolute_path_of_segments, String.eqb_refl by assumption.
  reflexivity.
Qed.

Lemma validate_shape (cwd p : string) :
  WaterButlerPath._validate_path cwd p = inr tt →
  ∃ segs dir, well_formed segs dir ∧ p = of_segments segs dir.
Proof.
  unfold WaterButlerPath._validate_path.
  string_eqb p ""; [discriminate|].
  destruct (Str.startswith "/" p) eqn:Hs; [|discriminate].
  destruct (Str.contains "//" p) eqn:Hd; [discriminate|]. simpl negb. cbv iota.
  string_eqb p (WaterButlerPath.absolute_path cwd p); [|discriminate].
  intros _. rename E0 into Habs.
  unfold WaterButlerPath.absolute_path, posixpath.abspath, posixpath.isabs in Habs.
  rewrite Hs in Habs.
  destruct (normpath_shape p Hs Hd) as (segs & Hall & Hnorm). rewrite Hnorm in Habs.
  destruct (negb (String.eqb p "/") && Str.endswith "/" p).
  - exists segs, true. rewrite of_segments_dir. split; [|assumption].
    split; [assumption|]. intros _ ->. rewrite Habs in Hd. discriminate.
  - exists segs, false. rewrite of_segments_file. split; [|assumption].
    split; [assumption | discriminate].
Qed.

(** ** What the constructor stores *)

Lemma rstrip_of_segments (segs : list string) (dir : bool) :
  well_formed segs dir →
  Str.rstrip "/" (of_segments segs dir)
  = match segs with [] => "" | _ => "/" +:+ Str.join "/" segs end.
Proof.
  intros [Hall Hdir].
  assert (Str.rstrip "/" (of_segments segs false)
          = match segs with [] => "" | _ => "/" +:+ Str.join "/" segs end) as Hfile.
  { destruct segs as [|w ws]; [reflexivity|].
    rewrite <- of_segments_file. apply rstrip_no_trailing.
    rewrite endswith_of_segments by (split; [assumption|discriminate]).
    reflexivity. }
  destruct dir; [|assumption].
  rewrite of_segments_file in Hfile.
  rewrite of_segments_dir, rstrip_app_slash. exact Hfile.
Qed.

Lemma parts_of_segments (segs : list string) (dir : bool) :
  well_formed segs dir →
  Str.split "/" (Str.rstrip "/" (of_segments segs dir)) = "" :: segs.
Proof.
  intros Hwf. rewrite rstrip_of_segments by assumption.
  destruct Hwf as [Hall _]. destruct segs as [|w ws]; [reflexivity|].
  change ("/" +:+ ?x) with (String "/" x). rewrite split_cons_slash. f_equal.
  apply split_join; [discriminate | now apply Forall_plain_slash_free].
Qed.

Lemma init_of_segments (cwd : string) (segs : list string) (dir pre suf : bool) :
  well_formed segs dir →
  ∃ p, WaterButlerPath.__init__ cwd (of_segments segs dir) pre suf = inr p
       ∧ WaterButlerPath._orig_path p = of_segments segs dir
       ∧ WaterButlerPath._parts p = "" :: segs
       ∧ WaterButlerPath._is_dir p = dir || bool_decide (segs = [])
       ∧ WaterButlerPath._is_root p = bool_decide (segs = [])
       ∧ WaterButlerPath._prefix p = pre
       ∧ WaterButlerPath._suffix p = suf.
Proof.
  intros Hwf. unfold WaterButlerPath.__init__.
  rewrite validate_of_segments by assumption.
  rewrite parts_of_segments, endswith_of_segments, of_segments_root by assumption.
  eexists. split; [reflexivity|]. repeat split.
Qed.

Lemma init_shape (cwd path : string) (pre suf : bool) (p : WaterButlerPath.t) :
  WaterButlerPath.__init__ cwd path pre suf = inr p →
  ∃ segs dir, well_formed segs dir ∧ path = of_segments segs dir.
Proof.
  unfold WaterButlerPath.__init__.
  destruct (WaterButlerPath._validate_path cwd path) as [e|[]] eqn:Hv; [discriminate|].
  intros _. now apply validate_shape in Hv.
Qed.

(* ===================================================================== *)
(** ** The path model: construction, root, parent, formatting *)
(* ===================================================================== *)

Lemma init_inv (cwd path : string) (pre suf : bool) (p : WaterButlerPath.t) :
  WaterButlerPath.__init__ cwd path pre suf = inr p →
  WaterButlerPath._validate_path cwd path = inr tt
  ∧ p = {| WaterButlerPath._orig_path := path;
           WaterButlerPath._parts := Str.split "/" (Str.rstrip "/" path);
           WaterButlerPath._is_dir := Str.endswith "/" path;
           WaterButlerPath._is_root := String.eqb path "/";
           WaterButlerPath._prefix := pre;
           WaterButlerPath._suffix := suf;
           WaterButlerPath._path := WaterButlerPath._format_path pre suf path |}.
Proof.
  unfold WaterButlerPath.__init__.
  destruct (WaterButlerPath._validate_path cwd path) as [e|[]]; [discriminate|].
  intros [= <-]. split; reflexivity.
Qed.

(** The validator raises nothing but [ValueError]. *)
Lemma validate_raises (cwd path : string) (e : exn) :
  WaterButlerPath._validate_path cwd path = inl e → ∃ msg, e = ValueError msg.
Proof.
  unfold WaterButlerPath._validate_path, WaterButlerPath.invalid_path.
  repeat case_match; intros [= <-]; eauto.
Qed.

(** C1: constructing a path fails, with a [ValueError], exactly for the
    strings that are empty, do not start with the separator, contain a
    doubled separator, or differ from their absolute form (the separator
    appended again when the string ends with one and is not the root); for
    every other string the construction succeeds. *)
Theorem construction_fails_iff (cwd path : string) (prefix suffix : bool) :
  ((∃ e, WaterButlerPath.__init__ cwd path prefix suffix = inl e)
   ↔ (path = "" ∨ Str.startswith "/" path = false
      ∨ Str.contains "//" path = true
      ∨ WaterButlerPath.absolute_path cwd path ≠ path))
  ∧ ((∃ p, WaterButlerPath.__init__ cwd path prefix suffix = inr p)
     ↔ ¬ (path = "" ∨ Str.startswith "/" path = false
          ∨ Str.contains "//" path = true
          ∨ WaterButlerPath.absolute_path cwd path ≠ path))
  ∧ (∀ e, WaterButlerPath.__init__ cwd path prefix suffix = inl e →
          ∃ msg, e = ValueError msg).
Proof.
  assert (WaterButlerPath._validate_path cwd path = inr tt
          ↔ ¬ (path = "" ∨ Str.startswith "/" path = false
               ∨ Str.contains "//" path = true
               ∨ WaterButlerPath.absolute_path cwd path ≠ path)) as Hok.
  { unfold WaterButlerPath._validate_path.
    string_eqb path ""; [split; [discriminate | intros []; auto]|].
    destruct (Str.startswith "/" path) eqn:Hs; simpl negb; cbv iota;
      [|split; [discriminate | intros []; auto]].
    destruct (Str.contains "//" path) eqn:Hd;
      [split; [discriminate | intros []; auto]|].
    string_eqb path (WaterButlerPath.absolute_path cwd path); simpl negb; cbv iota.
    - split; [|reflexivity]. intros _ [?|[?|[?|?]]]; congruence.
    - split; [discriminate|]. intros []. do 3 right. congruence. }
  assert (∀ P : Prop, Decision P → (¬ ¬ P ↔ P)) as Hnn.
  { intros P HP. split; [apply dec_stable | auto]. }
  unfold WaterButlerPath.__init__.
  destruct (WaterButlerPath._validate_path cwd path) as [e|[]] eqn:Hv.
  - assert (path = "" ∨ Str.startswith "/" path = false
            ∨ Str.contains "//" path = true
            ∨ WaterButlerPath.absolute_path cwd path ≠ path) as Hbad.
    { apply Hnn; [apply _|]. intros Hgood. apply Hok in Hgood. discriminate. }
    repeat split.
    + auto.
    + eauto.
    + intros [p [=]].
    + intros Hgood. tauto.
    + intros e' [= <-]. eapply validate_raises, Hv.
  - pose proof (proj1 Hok eq_refl) as Hgood. repeat split.
    + intros [e [=]].
    + tauto.
    + auto.
    + eauto.
    + intros e [=].
Qed.

(** X1: the strings the constructor accepts are the separator followed by
    plain segments (not empty, neither [.] nor [..], without a separator
    inside) joined by the separator, with one more separator at the end of a
    directory that has a segment. *)
Lemma construction_succeeds_iff (cwd path : string) (prefix suffix : bool) :
  (∃ p, WaterButlerPath.__init__ cwd path prefix suffix = inr p)
  ↔ ∃ segs dir, well_formed segs dir ∧ path = of_segments segs dir.
Proof.
  split.
  - intros [p Hp]. eapply init_shape, Hp.
  - intros (segs & dir & Hwf & ->).
    destruct (init_of_segments cwd segs dir prefix suffix Hwf) as (p & Hp & _).
    eauto.
Qed.

(** C4, as the code has it: the path of the string [/] is the root and a
    directory, its list of parts is the single empty string that [split]
    gives, and its parent is the root path again, with the same options. *)
Theorem root_path (cwd : string) (prefix suffix : bool) :
  ∃ root, WaterButlerPath.__init__ cwd "/" prefix suffix = inr root
          ∧ WaterButlerPath.is_root root = true
          ∧ WaterButlerPath.is_dir root = true
          ∧ WaterButlerPath.parts root = [""]
          ∧ WaterButlerPath.parent cwd root = inr root.
Proof.
  eexists. split; [reflexivity|].
  destruct prefix, suffix; repeat split.
Qed.

(** C4 fails as stated: the root has one part, not none, and asking for its
    parent succeeds and returns a usable path, the root. *)
Lemma root_parent_is_root :
  ∃ root, WaterButlerPath.__init__ "/srv" "/" true true = inr root
          ∧ length (WaterButlerPath.parts root) = 1
          ∧ WaterButlerPath.parent "/srv" root = inr root.
Proof. eexists. repeat split. Qed.

(** C6: the parent of a valid path that is not the root is a valid path
    whose parts are those of the path without the last one; it is a
    directory and carries the same formatting options. *)
Theorem parent_of_non_root (cwd path : string) (prefix suffix : bool)
    (P : WaterButlerPath.t) :
  WaterButlerPath.__init__ cwd path prefix suffix = inr P →
  WaterButlerPath.is_root P = false →
  ∃ Q, WaterButlerPath.parent cwd P = inr Q
       ∧ WaterButlerPath.parts Q = removelast (WaterButlerPath.parts P)
       ∧ WaterButlerPath.is_dir Q = true
       ∧ WaterButlerPath._prefix Q = WaterButlerPath._prefix P
       ∧ WaterButlerPath._suffix Q = WaterButlerPath._suffix P.
Proof.
  intros HP Hroot.
  destruct (init_shape _ _ _ _ _ HP) as (segs & dir & Hwf & ->).
  destruct (init_of_segments cwd segs dir prefix suffix Hwf)
    as (P' & HP' & _ & Hparts & _ & Hr & Hpre & Hsuf).
  rewrite HP in HP'. injection HP' as <-.
  unfold WaterButlerPath.is_root in Hroot. rewrite Hr in Hroot.
  apply bool_decide_eq_false in Hroot.
  unfold WaterButlerPath.parent, WaterButlerPath.parts, WaterButlerPath.is_dir,
    Str.but_last.
  rewrite Hparts, Hpre, Hsuf.
  assert (removelast ("" :: segs) = "" :: removelast segs) as ->
    by (destruct segs; [congruence | reflexivity]).
  set (segs' := removelast segs).
  assert (well_formed segs' (negb (bool_decide (segs' = [])))) as Hwf'.
  { split; [apply Forall_removelast, Hwf|].
    intros Hd Hnil. rewrite bool_decide_eq_true_2 in Hd by assumption. discriminate. }
  assert (Str.join "/" ("" :: segs') +:+ "/"
          = of_segments segs' (negb (bool_decide (segs' = [])))) as ->.
  { destruct segs' as [|v vs]; reflexivity. }
  destruct (init_of_segments cwd segs' _ prefix suffix Hwf')
    as (Q & HQ & _ & HQparts & HQdir & _ & HQpre & HQsuf).
  exists Q. rewrite HQparts, HQdir, HQpre, HQsuf. repeat split.
  - assumption.
  - now destruct (bool_decide (segs' = [])).
Qed.

(** The parent of [WaterButlerPath('/a/b', prefix=False)] is the directory
    [/a/], made without the prefix as well. *)
Lemma parent_of_non_root_example :
  ∃ Q, WaterButlerPath.parent "/srv"
         {| WaterButlerPath._orig_path := "/a/b";
            WaterButlerPath._parts := [""; "a"; "b"];
            WaterButlerPath._is_dir := false;
            WaterButlerPath._is_root := false;
            WaterButlerPath._prefix := false;
            WaterButlerPath._suffix := true;
            WaterButlerPath._path := "a/b" |} = inr Q
       ∧ WaterButlerPath.parts Q = [""; "a"]
       ∧ WaterButlerPath.is_dir Q = true
       ∧ WaterButlerPath._prefix Q = false
       ∧ WaterButlerPath._suffix Q = true.
Proof.
  apply (parent_of_non_root "/srv" "/a/b" false true); reflexivity.
Defined.

(** *** Formatting and parsing again *)

Lemma startswith_not_slash (a : ascii) (s : string) :
  Ascii.eqb a "/" = false → Str.startswith "/" (String a s) = false.
Proof.
  intros Ha. unfold Str.startswith. rewrite prefix_cons.
  destruct (ascii_dec "/" a) as [<-|_]; [discriminate | reflexivity].
Qed.

Lemma init_not_slash (cwd : string) (a : ascii) (s : string) (pre suf : bool) :
  Ascii.eqb a "/" = false →
  WaterButlerPath.__init__ cwd (String a s) pre suf
  = inl (WaterButlerPath.invalid_path (String a s)).
Proof.
  intros Ha. unfold WaterButlerPath.__init__, WaterButlerPath._validate_path.
  rewrite startswith_not_slash by assumption. reflexivity.
Qed.

Lemma format_keeps (suf : bool) (path : string) :
  suf = true ∨ Str.endswith "/" path = false ∨ String.eqb path "/" = true →
  WaterButlerPath._format_path true suf path = path.
Proof.
  unfold WaterButlerPath._format_path. simpl negb. cbv iota.
  intros [->|[Hfile|Hroot]].
  - now destruct (_ && _).
  - rewrite rstrip_no_trailing by assumption. now repeat case_match.
  - rewrite Hroot. simpl. now rewrite andb_false_r.
Qed.

(** Without the leading separator the formatted string starts with the
    first character of the first segment, or is empty for the root. *)
Lemma format_without_prefix (segs : list string) (dir suf : bool) :
  well_formed segs dir →
  WaterButlerPath._format_path false suf (of_segments segs dir) = ""
  ∨ ∃ a r, WaterButlerPath._format_path false suf (of_segments segs dir) = String a r
           ∧ Ascii.eqb a "/" = false.
Proof.
  intros [Hall Hdir]. destruct segs as [|w ws].
  - left. destruct dir; [now specialize (Hdir eq_refl)|]. now destruct suf.
  - right. inversion Hall as [|? ? Hw _]; subst.
    destruct (of_segments_cons w ws dir Hw) as (a & r & -> & Ha).
    unfold WaterButlerPath._format_path. simpl negb. cbv iota.
    assert (Str.lstrip "/" (String "/" (String a r)) = String a r) as ->.
    { unfold Str.lstrip. simpl. now rewrite Ha. }
    assert (String.eqb (String a r) "/" = false) as -> by (simpl; now rewrite Ha).
    simpl andb. cbv iota. destruct suf; simpl negb; cbv iota; [eauto|].
    unfold Str.rstrip. simpl. rewrite Ha. simpl. eauto.
Qed.

(** C5, as the code has it: the string of a path ([str]) is parsed again as
    the same path, whatever the options.  The formatted path is that string,
    and so is parsed again as the same path, when the leading separator is
    kept ([prefix]) and the trailing one is kept or absent ([suffix], a file,
    the root); without [prefix] the formatted path cannot be parsed, and a
    directory other than the root formatted without [suffix] is parsed as a
    file. *)
Theorem format_round_trip (cwd path : string) (prefix suffix : bool)
    (P : WaterButlerPath.t) :
  WaterButlerPath.__init__ cwd path prefix suffix = inr P →
  WaterButlerPath.__init__ cwd (WaterButlerPath.__str__ P) prefix suffix = inr P
  ∧ (prefix = true →
   suffix = true ∨ WaterButlerPath.is_dir P = false ∨ WaterButlerPath.is_root P = true →
   WaterButlerPath.path P = WaterButlerPath.__str__ P
   ∧ WaterButlerPath.__init__ cwd (WaterButlerPath.path P) prefix suffix = inr P
   ∧ ∀ pre' suf', ∃ Q,
       WaterButlerPath.__init__ cwd (WaterButlerPath.path P) pre' suf' = inr Q
       ∧ WaterButlerPath.__str__ Q = WaterButlerPath.__str__ P
       ∧ WaterButlerPath.parts Q = WaterButlerPath.parts P
       ∧ WaterButlerPath.is_dir Q = WaterButlerPath.is_dir P
       ∧ WaterButlerPath.is_root Q = WaterButlerPath.is_root P)
  ∧ (prefix = false →
     ∃ e, ∀ pre' suf',
       WaterButlerPath.__init__ cwd (WaterButlerPath.path P) pre' suf' = inl e)
  ∧ (prefix = true → suffix = false →
     WaterButlerPath.is_dir P = true → WaterButlerPath.is_root P = false →
     ∃ Q, WaterButlerPath.__init__ cwd (WaterButlerPath.path P) prefix suffix = inr Q
          ∧ WaterButlerPath.is_dir Q = false
          ∧ WaterButlerPath.__str__ Q ≠ WaterButlerPath.__str__ P).
Proof.
  intros HP. pose proof HP as [Hv ->]%init_inv.
  unfold WaterButlerPath.path, WaterButlerPath.__str__, WaterButlerPath.is_dir,
    WaterButlerPath.is_root, WaterButlerPath.parts.
  cbn [WaterButlerPath._path WaterButlerPath._orig_path WaterButlerPath._is_dir
       WaterButlerPath._is_root WaterButlerPath._parts].
  split; [assumption|]. split; [|split].
  - intros -> Hcases. rewrite format_keeps in * by assumption.
    split; [reflexivity|]. split; [assumption|].
    intros pre' suf'. unfold WaterButlerPath.__init__. rewrite Hv.
    eexists. split; [reflexivity|]. repeat split.
  - intros ->. destruct (validate_shape _ _ Hv) as (segs & dir & Hwf & ->).
    destruct (format_without_prefix segs dir suffix Hwf) as [->|(a & r & -> & Ha)].
    + eexists. intros pre' suf'. reflexivity.
    + eexists. intros pre' suf'. now apply init_not_slash.
  - intros -> -> Hdir Hroot.
    destruct (validate_shape _ _ Hv) as (segs & dir & Hwf & ->).
    rewrite endswith_of_segments in Hdir by assumption.
    rewrite of_segments_root in Hroot by assumption. rewrite Hroot in Hdir.
    rewrite orb_false_r in Hdir. subst dir.
    apply bool_decide_eq_false in Hroot.
    assert (well_formed segs false) as Hwf'.
    { split; [apply Hwf | discriminate]. }
    assert (WaterButlerPath._format_path true false (of_segments segs true)
            = of_segments segs false) as ->.
    { unfold WaterButlerPath._format_path.
      change (negb true) with false. change (negb false) with true. cbv iota.
      rewrite of_segments_root by assumption.
      rewrite bool_decide_eq_false_2 by assumption.
      change (String.eqb (of_segments segs true) "") with false.
      change (negb false && negb false) with true. cbv iota.
      rewrite rstrip_of_segments, of_segments_file by assumption.
      destruct segs; [congruence | reflexivity]. }
    destruct (init_of_segments cwd segs false true false Hwf')
      as (Q & HQ & HQstr & _ & HQdir & _).
    exists Q. split; [assumption|]. rewrite HQdir, HQstr.
    rewrite bool_decide_eq_false_2 by assumption. split; [reflexivity|].
    intros Heq. apply (f_equal (Str.endswith "/")) in Heq.
    rewrite !endswith_of_segments in Heq by assumption.
    rewrite bool_decide_eq_false_2 in Heq by assumption. discriminate.
Qed.

(** [WaterButlerPath('/a/b', suffix=False)], a file, is formatted as [/a/b]
    and parsed again as itself. *)
Lemma format_round_trip_example :
  let P := {| WaterButlerPath._orig_path := "/a/b";
              WaterButlerPath._parts := [""; "a"; "b"];
              WaterButlerPath._is_dir := false;
              WaterButlerPath._is_root := false;
              WaterButlerPath._prefix := true;
              WaterButlerPath._suffix := false;
              WaterButlerPath._path := "/a/b" |} in
  WaterButlerPath.path P = WaterButlerPath.__str__ P
  ∧ WaterButlerPath.__init__ "/srv" (WaterButlerPath.path P) true false = inr P
  ∧ ∀ pre' suf', ∃ Q,
      WaterButlerPath.__init__ "/srv" (WaterButlerPath.path P) pre' suf' = inr Q
      ∧ WaterButlerPath.__str__ Q = WaterButlerPath.__str__ P
      ∧ WaterButlerPath.parts Q = WaterButlerPath.parts P
      ∧ WaterButlerPath.is_dir Q = WaterButlerPath.is_dir P
      ∧ WaterButlerPath.is_root Q = WaterButlerPath.is_root P.
Proof.
  refine (proj1 (proj2 (format_round_trip "/srv" "/a/b" true false _ _)) _ _);
    [reflexivity | reflexivity | right; left; reflexivity].
Defined.

(** C5 fails as stated: [WaterButlerPath('/a', prefix=False)] is formatted as
    [a], which no choice of options parses; and [WaterButlerPath('/a/',
    suffix=False)] is formatted as [/a], which is parsed as a file. *)
Lemma formatted_path_is_not_parsed :
  (∃ P, WaterButlerPath.__init__ "/srv" "/a" false true = inr P
        ∧ WaterButlerPath.path P = "a"
        ∧ ∀ pre' suf',
            WaterButlerPath.__init__ "/srv" (WaterButlerPath.path P) pre' suf'
            = inl (ValueError "Invalid path 'a' specified"))
  ∧ (∃ P Q, WaterButlerPath.__init__ "/srv" "/a/" true false = inr P
            ∧ WaterButlerPath.path P = "/a"
            ∧ WaterButlerPath.__init__ "/srv" (WaterButlerPath.path P) true false = inr Q
            ∧ WaterButlerPath.is_dir P = true
            ∧ WaterButlerPath.is_dir Q = false
            ∧ WaterButlerPath.__str__ P = "/a/"
            ∧ WaterButlerPath.__str__ Q = "/a").
Proof.
  split.
  - eexists. split; [reflexivity|]. split; [reflexivity|]. intros [] []; reflexivity.
  - do 2 eexists. repeat split.
Qed.

(* ===================================================================== *)
(** ** The Dryad provider *)
(* ===================================================================== *)


(** C10: [can_intra_copy] answers [True] whatever the destination provider
    and the path are, and [can_duplicate_names] answers [False]. *)
Theorem capabilities_are_constant (self : DryadProvider)
    (other : dryad.Provider) (path : option ref) :
  dryad.can_intra_copy self other path = true
  ∧ dryad.can_duplicate_names self = false.
Proof. split; reflexivity. Qed.

(** *** Validation *)

Lemma validate_path_depth (cwd : string) (self : DryadProvider) (raw : string)
    (p : WaterButlerPath.t) (w : world) :
  WaterButlerPath.__init__ cwd raw true true = inr p →
  WaterButlerPath.is_root p = false →
  dryad.validate_path cwd self raw w
  = (if depth_rule p then inr p else inl (NotFoundError raw), w).
Proof.
  intros HP Hroot. unfold dryad.validate_path, bind, lift, depth_rule.
  rewrite HP, Hroot.
  destruct (Nat.eqb (length (WaterButlerPath.parts p)) 2
            && negb (WaterButlerPath.is_dir p)); [reflexivity|].
  destruct (Nat.eqb (length (WaterButlerPath.parts p)) 3
            && negb (WaterButlerPath.is_file p)); reflexivity.
Qed.

(** A path that is not the root has a first segment, and a second one when
    it is a file that obeys the depth rule. *)
Lemma parts_of_non_root (cwd raw : string) (pre suf : bool) (p : WaterButlerPath.t) :
  WaterButlerPath.__init__ cwd raw pre suf = inr p →
  WaterButlerPath.is_root p = false →
  ∃ s1 rest, WaterButlerPath.parts p = "" :: s1 :: rest
             ∧ (depth_rule p = true → WaterButlerPath.is_file p = true →
                ∃ s2 rest', rest = s2 :: rest').
Proof.
  intros HP Hroot.
  destruct (init_shape _ _ _ _ _ HP) as (segs & dir & Hwf & ->).
  destruct (init_of_segments cwd segs dir pre suf Hwf)
    as (P' & HP' & _ & Hparts & _ & Hr & _).
  rewrite HP in HP'. injection HP' as <-.
  unfold WaterButlerPath.is_root in Hroot. rewrite Hr in Hroot.
  apply bool_decide_eq_false in Hroot.
  unfold depth_rule, WaterButlerPath.parts, WaterButlerPath.is_file,
    WaterButlerPath.is_dir. rewrite Hparts.
  destruct segs as [|s1 rest]; [congruence|]. exists s1, rest. split; [reflexivity|].
  intros Hdepth Hfile. destruct rest as [|s2 rest']; [|eauto].
  rewrite Hfile in Hdepth. discriminate.
Qed.

(** C7, as the code has it.  For a syntactically valid path that is not the
    root: when the server answers the lookup with 404 the operation raises
    [NotFoundError], after the lookup or, for a path against the depth rule,
    before any; a path against the depth rule raises [NotFoundError] without
    a lookup whatever the server would say; a path that obeys the rule and
    for which the server answers 200 is returned after the one lookup, and
    its string is the input, which is its own absolute form. *)
Theorem validate_v1_path_outcomes (cwd meta_url : string)
    (transport : list request → request → response) (self : DryadProvider)
    (raw : string) (p : WaterButlerPath.t) (w : world) :
  WaterButlerPath.__init__ cwd raw true true = inr p →
  WaterButlerPath.is_root p = false →
  (status (transport (requests w) (lookup meta_url p)) = 404%Z →
   ∃ w', dryad.validate_v1_path cwd meta_url transport self raw w
         = (inl (NotFoundError raw), w')
         ∧ (w' = w ∨ w' = asked (lookup meta_url p) w))
  ∧ (depth_rule p = false →
     dryad.validate_v1_path cwd meta_url transport self raw w
     = (inl (NotFoundError raw), w))
  ∧ (depth_rule p = true →
     status (transport (requests w) (lookup meta_url p)) = 200%Z →
     dryad.validate_v1_path cwd meta_url transport self raw w
     = (inr p, asked (lookup meta_url p) w)
     ∧ WaterButlerPath.__str__ p = raw
     ∧ WaterButlerPath.absolute_path cwd raw = raw).
Proof.
  intros HP Hroot.
  pose proof (validate_path_depth cwd self raw p w HP Hroot) as Hvp.
  destruct (parts_of_non_root _ _ _ _ _ HP Hroot) as (s1 & rest & Hparts & Hsecond).
  assert (depth_rule p = true →
          ∀ st, status (transport (requests w) (lookup meta_url p)) = st →
          dryad.validate_v1_path cwd meta_url transport self raw w
          = (if bool_decide (st ∈ [200; 404]%Z)
             then if Z.eqb st 404 then inl (NotFoundError raw) else inr p
             else inl (MetadataError st),
             asked (lookup meta_url p) w)) as Hrun.
  { intros Hdepth st Hst. unfold dryad.validate_v1_path, bind. rewrite Hvp, Hdepth, Hroot.
    unfold lookup in *. rewrite Hparts in *. cbn [lookup_total default] in *.
    unfold index. simpl lookup. unfold ret at 1.
    destruct (WaterButlerPath.is_file p) eqn:Hfile.
    - destruct (Hsecond Hdepth eq_refl) as (s2 & rest' & ->).
      simpl in *. unfold dryad.make_request, dryad.value, asked.
      rewrite Hst. destruct (bool_decide (st ∈ [200; 404]%Z)); [|reflexivity].
      rewrite Hst. destruct (Z.eqb st 404); reflexivity.
    - simpl in *. unfold dryad.make_request, dryad.value, asked.
      rewrite Hst. destruct (bool_decide (st ∈ [200; 404]%Z)); [|reflexivity].
      rewrite Hst. destruct (Z.eqb st 404); reflexivity. }
  assert (depth_rule p = false →
          dryad.validate_v1_path cwd meta_url transport self raw w
          = (inl (NotFoundError raw), w)) as Hbad.
  { intros Hdepth. unfold dryad.validate_v1_path, bind. now rewrite Hvp, Hdepth. }
  split; [|split].
  - intros H404. destruct (depth_rule p) eqn:Hdepth.
    + rewrite (Hrun eq_refl _ H404). eexists. split; [reflexivity | now right].
    + rewrite (Hbad eq_refl). eexists. split; [reflexivity | now left].
  - exact Hbad.
  - intros Hdepth H200. rewrite (Hrun Hdepth _ H200).
    split; [reflexivity|]. apply init_inv in HP as [Hv ->]. split; [reflexivity|].
    destruct (validate_shape _ _ Hv) as (segs & dir & Hwf & ->).
    now apply absolute_path_of_segments.
Qed.

(** The file [/4/1]: returned after one lookup by a server that has it, not
    found by a server that has not. *)
Lemma validate_v1_path_example :
  let p := {| WaterButlerPath._orig_path := "/4/1";
              WaterButlerPath._parts := [""; "4"; "1"];
              WaterButlerPath._is_dir := false;
              WaterButlerPath._is_root := false;
              WaterButlerPath._prefix := true;
              WaterButlerPath._suffix := true;
              WaterButlerPath._path := "/4/1" |} in
  let rq := {| req_method := "GET"; req_url := "https://example.org/meta/4/1" |} in
  (dryad.validate_v1_path "/srv" "https://example.org/meta/" reports_present
     a_provider "/4/1" no_requests
   = (inr p, {| requests := [rq]; paths := ∅ |})
   ∧ WaterButlerPath.__str__ p = "/4/1"
   ∧ WaterButlerPath.absolute_path "/srv" "/4/1" = "/4/1")
  ∧ ∃ w', dryad.validate_v1_path "/srv" "https://example.org/meta/" reports_absent
            a_provider "/4/1" no_requests
          = (inl (NotFoundError "/4/1"), w')
          ∧ (w' = no_requests ∨ w' = {| requests := [rq]; paths := ∅ |}).
Proof.
  intros p rq. split.
  - refine (proj2 (proj2 (validate_v1_path_outcomes "/srv" "https://example.org/meta/"
                            reports_present a_provider "/4/1" p no_requests _ _)) _ _);
      reflexivity.
  - refine (proj1 (validate_v1_path_outcomes "/srv" "https://example.org/meta/"
                     reports_absent a_provider "/4/1" p no_requests _ _) _);
      reflexivity.
Defined.

(** C7 fails as stated: [/4/1/] and [/4] are syntactically valid and the
    server would report their targets present, yet the operation raises
    [NotFoundError], and asks nothing, because a path of two segments must
    be a file and a path of one segment a directory. *)
Lemma present_but_not_found :
  (∃ p, WaterButlerPath.__init__ "/srv" "/4/1/" true true = inr p
        ∧ WaterButlerPath.is_root p = false
        ∧ status (reports_present [] (lookup "https://example.org/meta/" p)) = 200%Z)
  ∧ dryad.validate_v1_path "/srv" "https://example.org/meta/" reports_present
      a_provider "/4/1/" no_requests
    = (inl (NotFoundError "/4/1/"), no_requests)
  ∧ dryad.validate_v1_path "/srv" "https://example.org/meta/" reports_present
      a_provider "/4" no_requests
    = (inl (NotFoundError "/4"), no_requests).
Proof.
  split; [|split]; [|reflexivity|reflexivity].
  eexists. repeat split.
Qed.

(** C8, as the code has it: in the two-level name space the file [YY] of the
    package [4] is [/4/YY]; validating it returns a file path with the parts
    ['', '4', 'YY'], also after the server has confirmed it, and validating
    [/4/YY/] raises [NotFoundError].  The string [/4YY] names one segment:
    as a file it is against the depth rule and raises [NotFoundError], and
    [/4YY/] is accepted as the directory of a package. *)
Theorem two_level_scenario (cwd meta_url : string) (self : DryadProvider) (w : world) :
  let file := {| WaterButlerPath._orig_path := "/4/YY";
                 WaterButlerPath._parts := [""; "4"; "YY"];
                 WaterButlerPath._is_dir := false;
                 WaterButlerPath._is_root := false;
                 WaterButlerPath._prefix := true;
                 WaterButlerPath._suffix := true;
                 WaterButlerPath._path := "/4/YY" |} in
  let package := {| WaterButlerPath._orig_path := "/4YY/";
                    WaterButlerPath._parts := [""; "4YY"];
                    WaterButlerPath._is_dir := true;
                    WaterButlerPath._is_root := false;
                    WaterButlerPath._prefix := true;
                    WaterButlerPath._suffix := true;
                    WaterButlerPath._path := "/4YY/" |} in
  dryad.validate_path cwd self "/4/YY" w = (inr file, w)
  ∧ WaterButlerPath.is_file file = true
  ∧ dryad.validate_v1_path cwd meta_url reports_present self "/4/YY" w
    = (inr file, asked {| req_method := "GET";
                          req_url := (meta_url +:+ "4") +:+ "/" +:+ "YY" |} w)
  ∧ dryad.validate_path cwd self "/4/YY/" w = (inl (NotFoundError "/4/YY/"), w)
  ∧ dryad.validate_v1_path cwd meta_url reports_present self "/4/YY/" w
    = (inl (NotFoundError "/4/YY/"), w)
  ∧ dryad.validate_path cwd self "/4YY" w = (inl (NotFoundError "/4YY"), w)
  ∧ dryad.validate_v1_path cwd meta_url reports_present self "/4YY" w
    = (inl (NotFoundError "/4YY"), w)
  ∧ dryad.validate_path cwd self "/4YY/" w = (inr package, w)
  ∧ WaterButlerPath.is_file package = false.
Proof. repeat split. Qed.

(** C8 fails as stated: validating [/4YY] returns no file path with the
    segments [4] and [YY] but raises [NotFoundError], with or without the
    server's confirmation, and validating [/4YY/] does not fail. *)
Lemma one_segment_scenario :
  dryad.validate_path "/srv" a_provider "/4YY" no_requests
  = (inl (NotFoundError "/4YY"), no_requests)
  ∧ dryad.validate_v1_path "/srv" "https://example.org/meta/" reports_present
      a_provider "/4YY" no_requests
    = (inl (NotFoundError "/4YY"), no_requests)
  ∧ (∃ p, dryad.validate_path "/srv" a_provider "/4YY/" no_requests
          = (inr p, no_requests)
          ∧ WaterButlerPath.parts p = [""; "4YY"]
          ∧ WaterButlerPath.is_dir p = true).
Proof.
  split; [reflexivity|]. split; [reflexivity|]. eexists. repeat split.
Qed.

(** *** Intra-copy *)

(** C2 fails on the code: [_do_intra_move_or_copy] renames the destination
    path in place.  A copy of [/4/1] onto the path object [/backup/old.csv],
    against a server that serves the file as [data.csv]: whatever the
    destination provider is, it is handed the caller's object, whose last
    part is [data.csv] by then. *)
Theorem intra_copy_renames_destination (dest_provider : dryad.Provider) :
  let src := {| WaterButlerPath._orig_path := "/4/1";
                WaterButlerPath._parts := [""; "4"; "1"];
                WaterButlerPath._is_dir := false;
                WaterButlerPath._is_root := false;
                WaterButlerPath._prefix := true;
                WaterButlerPath._suffix := true;
                WaterButlerPath._path := "/4/1" |} in
  let dst := {| WaterButlerPath._orig_path := "/backup/old.csv";
                WaterButlerPath._parts := [""; "backup"; "old.csv"];
                WaterButlerPath._is_dir := false;
                WaterButlerPath._is_root := false;
                WaterButlerPath._prefix := true;
                WaterButlerPath._suffix := true;
                WaterButlerPath._path := "/backup/old.csv" |} in
  let w0 := {| requests := []; paths := {[ 0 := src; 1 := dst ]} |} in
  let get := λ url, {| req_method := "GET"; req_url := url |} in
  let w1 :=
    {| requests := [get "https://example.org/meta/4/1/bitstream";
                    get "https://example.org/meta/4/1";
                    get "https://example.org/file/4/1/bitstream";
                    get "https://example.org/meta/4/1/bitstream"];
       paths := {[ 0 := src; 1 := dryad.rename_parts "data.csv" dst ]} |} in
  WaterButlerPath.__init__ "/srv" "/4/1" true true = inr src
  ∧ WaterButlerPath.__init__ "/srv" "/backup/old.csv" true true = inr dst
  ∧ dryad.intra_copy "https://example.org/meta/" "https://example.org/file/"
      reports_present parse_header_line dryad.fm_file_name (λ _, PyNone)
      a_provider dest_provider 0 1 w0
    = dryad.provider_upload dest_provider
        {| dryad.stream_resp :=
             {| status := 200; body := "";
                headers := {[ "Content-Disposition" := "attachment; filename=data.csv" ]} |};
           dryad.stream_size := PyNone;
           dryad.stream_name := "data.csv" |} 1 w1
  ∧ paths w0 !! 1 = Some dst
  ∧ WaterButlerPath.name dst = inr "old.csv"
  ∧ paths w1 !! 1 = Some (dryad.rename_parts "data.csv" dst)
  ∧ WaterButlerPath.name (dryad.rename_parts "data.csv" dst) = inr "data.csv".
Proof.
  intros src dst w0 get w1.
  split; [reflexivity|]. split; [reflexivity|].
  split; [vm_compute; reflexivity|]. repeat split.
Qed.

(* ===================================================================== *)
(** ** OwnCloud metadata *)
(* ===================================================================== *)

(** *** [int] reads back what [str] writes *)

Lemma digits_value_digit (a : ascii) (acc : Z) (seen : bool) (s : string) :
  Str.is_digit a = true →
  digits_value acc seen (String a s)
  = digits_value (10 * acc + Z.of_nat (nat_of_ascii a - 48)) true s.
Proof. intros Ha. cbn [digits_value]. now rewrite Ha. Qed.

Lemma digits_value_acc (u : Decimal.uint) (acc : positive) :
  digits_value (Zpos acc) true (NilEmpty.string_of_uint u)
  = Some (Zpos (Pos.of_uint_acc u acc)).
Proof.
  revert acc. induction u as [|u IH|u IH|u IH|u IH|u IH|u IH|u IH|u IH|u IH|u IH];
    intros acc; [reflexivity|..];
    cbn [NilEmpty.string_of_uint Pos.of_uint_acc];
    rewrite digits_value_digit by reflexivity;
    rewrite <- IH; f_equal.
    all: rewrite ?Pos2Z.inj_add, ?Pos2Z.inj_mul.
    all: match goal with |- context [Z.of_nat ?n] => let v := eval vm_compute in (Z.of_nat n) in change (Z.of_nat n) with v end.
    all: lia.
Qed.

Lemma digits_value_uint (u : Decimal.uint) :
  digits_value 0 true (NilEmpty.string_of_uint u) = Some (Z.of_N (Pos.of_uint u)).
Proof.
  induction u as [|u IH|u IH|u IH|u IH|u IH|u IH|u IH|u IH|u IH|u IH];
    [reflexivity|..];
    cbn [NilEmpty.string_of_uint Pos.of_uint];
    rewrite digits_value_digit by reflexivity;
    [exact IH|..]; apply digits_value_acc.
Qed.

Lemma digits_value_unseen (u : Decimal.uint) :
  u ≠ Decimal.Nil →
  digits_value 0 false (NilEmpty.string_of_uint u)
  = digits_value 0 true (NilEmpty.string_of_uint u).
Proof. destruct u; [congruence|..]; reflexivity. Qed.

Lemma rstrip_space_uint (u : Decimal.uint) :
  Str.rstrip_by Str.is_space (NilEmpty.string_of_uint u) = NilEmpty.string_of_uint u.
Proof.
  induction u as [|u IH|u IH|u IH|u IH|u IH|u IH|u IH|u IH|u IH|u IH];
    [reflexivity|..];
    cbn [NilEmpty.string_of_uint Str.rstrip_by]; rewrite IH; reflexivity.
Qed.

Lemma int_of_string_uint (u : Decimal.uint) :
  u ≠ Decimal.Nil →
  int_of_string (NilEmpty.string_of_uint u) = Some (Z.of_N (Pos.of_uint u))
  ∧ int_of_string (String "-" (NilEmpty.string_of_uint u)) = Some (- Z.of_N (Pos.of_uint u))%Z.
Proof.
  intros Hu. unfold int_of_string, Str.strip_space.
  cbn [Str.rstrip_by]. rewrite rstrip_space_uint.
  assert (Str.is_space "-" && String.eqb (NilEmpty.string_of_uint u) "" = false) as -> by reflexivity.
  split.
  - rewrite <- digits_value_uint, <- digits_value_unseen by assumption.
    destruct u; [congruence|..]; reflexivity.
  - cbn [Str.lstrip_by]. change (Str.is_space "-") with false. cbv iota.
    rewrite digits_value_unseen, digits_value_uint by assumption. reflexivity.
Qed.

Lemma int_of_string_str_of_int (z : Z) : int_of_string (str_of_int z) = Some z.
Proof.
  unfold str_of_int. destruct z as [|p|p]; [reflexivity|..];
    cbn [Z.to_int NilZero.string_of_int]; unfold NilZero.string_of_uint;
    pose proof (DecimalPos.Unsigned.to_uint_nonnil p) as Hnn;
    pose proof (DecimalPos.Unsigned.of_to p) as Hof;
    destruct (int_of_string_uint (Pos.to_uint p) Hnn) as [Hpos Hneg];
    rewrite Hof in *; destruct (Pos.to_uint p); try congruence; assumption.
Qed.

(** C9, as the code has it: the size of an entry, file or folder alike, is
    [None] when the attributes have no [getcontentlength]; otherwise it is
    the decimal string of the integer that the attribute denotes, a string
    that [int] reads back as that integer, and never an integer itself (the
    property raises when the attribute denotes no integer). *)
Theorem size_of_metadata (c : owncloud.kind) (href folder : string)
    (attrs : option (gmap string pyval)) :
  let m := owncloud.__init__ c href folder attrs in
  match owncloud.size m with
  | inr PyNone => owncloud.attributes m !! "{DAV:}getcontentlength" = None
  | inr (PyStr s) =>
      ∃ a n, owncloud.attributes m !! "{DAV:}getcontentlength" = Some a
             ∧ py_int a = inr n ∧ s = str_of_int n
             ∧ int_of_string s = Some n
  | inr (PyInt _) => False
  | inl e =>
      ∃ a, owncloud.attributes m !! "{DAV:}getcontentlength" = Some a
           ∧ py_int a = inl e
  end
  ∧ owncloud.size (owncloud.OwnCloudFolderMetadata href folder attrs)
    = owncloud.size (owncloud.OwnCloudFileMetadata href folder attrs).
Proof.
  intros m. split; [|reflexivity]. unfold owncloud.size.
  destruct (owncloud.attributes m !! "{DAV:}getcontentlength") as [a|]; [|reflexivity].
  destruct (py_int a) as [e|n] eqn:Ha; [eauto|].
  exists a, n. split; [reflexivity|]. split; [assumption|].
  split; [reflexivity | apply int_of_string_str_of_int].
Qed.

(** C9 fails as stated: the metadata of a folder whose attributes report a
    content length carries a size, and the size is the string [42], not the
    integer. *)
Lemma folder_size_is_a_string :
  owncloud.size
    (owncloud.OwnCloudFolderMetadata "/remote.php/webdav/docs/" "/remote.php/webdav"
       (Some {[ "{DAV:}getcontentlength" := PyStr "42" ]}))
  = inr (PyStr "42")
  ∧ owncloud.size
      (owncloud.OwnCloudFileMetadata "/remote.php/webdav/docs/a.txt" "/remote.php/webdav"
         (Some {[ "{DAV:}getcontentlength" := PyInt 42 ]}))
    = inr (PyStr "42").
Proof. split; vm_compute; reflexivity. Qed.

(* ===================================================================== *)
(** ** More about the path model *)
(* ===================================================================== *)

(** X2: [os.path.abspath] reads the working directory, the constructor does
    not depend on it: it reaches [abspath] with absolute strings only. *)
Theorem construction_ignores_cwd (cwd cwd' path : string) (prefix suffix : bool) :
  WaterButlerPath.__init__ cwd path prefix suffix
  = WaterButlerPath.__init__ cwd' path prefix suffix.
Proof.
  assert (WaterButlerPath._validate_path cwd path
          = WaterButlerPath._validate_path cwd' path) as Hv.
  { unfold WaterButlerPath._validate_path.
    destruct (String.eqb path ""); [reflexivity|].
    destruct (Str.startswith "/" path) eqn:Hs; [|reflexivity].
    unfold WaterButlerPath.absolute_path, posixpath.abspath, posixpath.isabs.
    rewrite Hs. reflexivity. }
  unfold WaterButlerPath.__init__. rewrite Hv. reflexivity.
Qed.

Lemma constructed (cwd path : string) (pre suf : bool) (p : WaterButlerPath.t) :
  WaterButlerPath.__init__ cwd path pre suf = inr p →
  ∃ segs dir, well_formed segs dir
    ∧ path = of_segments segs dir
    ∧ WaterButlerPath._orig_path p = of_segments segs dir
    ∧ WaterButlerPath._parts p = "" :: segs
    ∧ WaterButlerPath._is_dir p = dir || bool_decide (segs = [])
    ∧ WaterButlerPath._is_root p = bool_decide (segs = [])
    ∧ WaterButlerPath._prefix p = pre
    ∧ WaterButlerPath._suffix p = suf.
Proof.
  intros HP. destruct (init_shape _ _ _ _ _ HP) as (segs & dir & Hwf & ->).
  destruct (init_of_segments cwd segs dir pre suf Hwf) as (P' & HP' & Hrest).
  rewrite HP in HP'. injection HP' as <-. exists segs, dir. tauto.
Qed.

(** X3: the parts of a constructed path are the empty string that stands for
    the root followed by plain segments, so that no part is [.] or [..] or
    holds a separator; the path is the root exactly when there is no
    segment, and the root is a directory. *)
Theorem parts_of_constructed (cwd path : string) (prefix suffix : bool)
    (p : WaterButlerPath.t) :
  WaterButlerPath.__init__ cwd path prefix suffix = inr p →
  ∃ segs, WaterButlerPath.parts p = "" :: segs
          ∧ Forall plain segs
          ∧ (WaterButlerPath.is_root p = true ↔ segs = [])
          ∧ (WaterButlerPath.is_root p = true → WaterButlerPath.is_dir p = true)
          ∧ WaterButlerPath.is_file p = negb (WaterButlerPath.is_dir p).
Proof.
  intros (segs & dir & [Hall Hdir] & _ & _ & Hparts & Hd & Hr & _)%constructed.
  exists segs. unfold WaterButlerPath.parts, WaterButlerPath.is_root,
    WaterButlerPath.is_dir, WaterButlerPath.is_file. rewrite Hparts, Hd, Hr.
  repeat split; try assumption.
  - apply bool_decide_eq_true_1.
  - apply bool_decide_eq_true_2.
  - intros ->. apply orb_true_r.
Qed.

(** The parts of [/a/b/]. *)
Lemma parts_of_constructed_example :
  let p := {| WaterButlerPath._orig_path := "/a/b/";
              WaterButlerPath._parts := [""; "a"; "b"];
              WaterButlerPath._is_dir := true;
              WaterButlerPath._is_root := false;
              WaterButlerPath._prefix := true;
              WaterButlerPath._suffix := true;
              WaterButlerPath._path := "/a/b/" |} in
  ∃ segs, WaterButlerPath.parts p = "" :: segs
          ∧ Forall plain segs
          ∧ (WaterButlerPath.is_root p = true ↔ segs = [])
          ∧ (WaterButlerPath.is_root p = true → WaterButlerPath.is_dir p = true)
          ∧ WaterButlerPath.is_file p = negb (WaterButlerPath.is_dir p).
Proof.
  intros p. apply (parts_of_constructed "/srv" "/a/b/" true true p). reflexivity.
Defined.

(** X4: the parts lose nothing: joined by the separator, and followed by one
    when the path is a directory, they give the string of the path back. *)
Theorem str_of_parts (cwd path : string) (prefix suffix : bool)
    (p : WaterButlerPath.t) :
  WaterButlerPath.__init__ cwd path prefix suffix = inr p →
  WaterButlerPath.__str__ p
  = Str.join "/" (WaterButlerPath.parts p)
    +:+ (if WaterButlerPath.is_dir p then "/" else "")
  ∧ WaterButlerPath.__str__ p = path.
Proof.
  intros (segs & dir & [Hall Hdir] & -> & Hstr & Hparts & Hd & _)%constructed.
  unfold WaterButlerPath.__str__, WaterButlerPath.parts, WaterButlerPath.is_dir.
  rewrite Hstr, Hparts, Hd. split; [|reflexivity].
  destruct segs as [|w ws].
  - destruct dir; [now specialize (Hdir eq_refl) | reflexivity].
  - rewrite orb_false_r. unfold of_segments. rewrite join_cons.
    change ("" +:+ ?x) with x. now rewrite append_cons.
Qed.

Lemma str_of_parts_example :
  let p := {| WaterButlerPath._orig_path := "/a/b/";
              WaterButlerPath._parts := [""; "a"; "b"];
              WaterButlerPath._is_dir := true;
              WaterButlerPath._is_root := false;
              WaterButlerPath._prefix := true;
              WaterButlerPath._suffix := true;
              WaterButlerPath._path := "/a/b/" |} in
  WaterButlerPath.__str__ p
  = Str.join "/" (WaterButlerPath.parts p)
    +:+ (if WaterButlerPath.is_dir p then "/" else "")
  ∧ WaterButlerPath.__str__ p = "/a/b/".
Proof.
  intros p. apply (str_of_parts "/srv" "/a/b/" true true p). reflexivity.
Defined.

(** *** Formatting, on every string *)

Lemma lstrip_no_slash (s : string) :
  Str.startswith "/" (Str.lstrip "/" s) = false.
Proof.
  unfold Str.lstrip. induction s as [|a s IH]; [reflexivity|].
  cbn [Str.lstrip_by]. destruct (Ascii.eqb a "/") eqn:Ha; [exact IH|].
  now apply startswith_not_slash.
Qed.

Lemma lstrip_id (s : string) :
  Str.startswith "/" s = false → Str.lstrip "/" s = s.
Proof.
  unfold Str.lstrip. destruct s as [|a s]; [reflexivity|].
  cbn [Str.lstrip_by]. ascii_eqb a "/"%char; [|reflexivity].
  now rewrite startswith_slash_cons.
Qed.

Lemma endswith_rstrip (s : string) :
  Str.endswith "/" (Str.rstrip "/" s) = false.
Proof.
  unfold Str.rstrip. induction s as [|a s IH]; [reflexivity|].
  cbn [Str.rstrip_by].
  destruct (Ascii.eqb a "/" && String.eqb (Str.rstrip_by _ s) "") eqn:Hc;
    [reflexivity|].
  cbn [Str.endswith]. rewrite IH, orb_false_r.
  destruct (Str.rstrip_by _ s) eqn:Hr.
  - rewrite andb_true_r in Hc. simpl. now rewrite Hc.
  - simpl. now destruct (Ascii.eqb a "/").
Qed.

Lemma rstrip_idempotent (s : string) :
  Str.rstrip "/" (Str.rstrip "/" s) = Str.rstrip "/" s.
Proof. apply rstrip_no_trailing, endswith_rstrip. Qed.

Lemma startswith_rstrip (s : string) :
  Str.startswith "/" s = false → Str.startswith "/" (Str.rstrip "/" s) = false.
Proof.
  unfold Str.rstrip. destruct s as [|a s]; [reflexivity|].
  cbn [Str.rstrip_by]. ascii_eqb a "/"%char.
  - now rewrite startswith_slash_cons.
  - intros _. simpl andb. cbv iota. apply startswith_not_slash.
    now apply Ascii.eqb_neq.
Qed.

Lemma not_slash_start (s : string) :
  Str.startswith "/" s = false → String.eqb s "/" = false.
Proof.
  intros Hs. string_eqb s "/"; [|reflexivity].
  now rewrite startswith_slash_cons in Hs.
Qed.

Lemma not_slash_end (s : string) :
  Str.endswith "/" s = false → String.eqb s "/" = false.
Proof. intros Hs. string_eqb s "/"; [discriminate | reflexivity]. Qed.

(** X5: formatting is idempotent on every string, for every choice of the
    options: a formatted path is formatted as itself. *)
Theorem format_idempotent (prefix suffix : bool) (path : string) :
  WaterButlerPath._format_path prefix suffix
    (WaterButlerPath._format_path prefix suffix path)
  = WaterButlerPath._format_path prefix suffix path.
Proof.
  assert (∀ q, WaterButlerPath._format_path true suffix
                 (WaterButlerPath._format_path true suffix q)
               = WaterButlerPath._format_path true suffix q) as Hkeep.
  { intros q. unfold WaterButlerPath._format_path.
    change (negb true) with false. cbv iota.
    destruct suffix; [now repeat case_match|]. change (negb false) with true. cbv iota.
    destruct (negb (String.eqb q "") && negb (String.eqb q "/")) eqn:Hq.
    - rewrite rstrip_idempotent. now repeat case_match.
    - now rewrite Hq. }
  destruct prefix; [apply Hkeep|].
  assert (∀ q, WaterButlerPath._format_path false suffix q
               = WaterButlerPath._format_path true suffix (Str.lstrip "/" q)) as Hstrip
    by reflexivity.
  rewrite !Hstrip.
  assert (Str.lstrip "/" (WaterButlerPath._format_path true suffix (Str.lstrip "/" path))
          = WaterButlerPath._format_path true suffix (Str.lstrip "/" path)) as ->;
    [|apply Hkeep].
  apply lstrip_id. unfold WaterButlerPath._format_path.
  change (negb true) with false. cbv iota.
  pose proof (lstrip_no_slash path) as Hno.
  repeat case_match; try assumption. now apply startswith_rstrip.
Qed.

(** X6: what the options promise, on every string: without [prefix] the
    formatted path does not start with the separator, and without [suffix]
    it does not end with one unless it is the separator alone. *)
Theorem format_strips (prefix suffix : bool) (path : string) :
  Str.startswith "/" (WaterButlerPath._format_path false suffix path) = false
  ∧ (WaterButlerPath._format_path prefix false path = "/"
     ∨ Str.endswith "/" (WaterButlerPath._format_path prefix false path) = false).
Proof.
  split.
  - unfold WaterButlerPath._format_path.
    change (negb false) with true. cbv iota.
    pose proof (lstrip_no_slash path) as Hno.
    repeat case_match; try assumption. now apply startswith_rstrip.
  - unfold WaterButlerPath._format_path.
    change (negb false) with true. cbv iota.
    set (q := if negb prefix then Str.lstrip "/" path else path).
    destruct (String.eqb q "") eqn:E1; simpl negb; simpl andb; cbv iota.
    { apply String.eqb_eq in E1. right. now rewrite E1. }
    destruct (String.eqb q "/") eqn:E2; simpl negb; cbv iota.
    { apply String.eqb_eq in E2. now left. }
    right. apply endswith_rstrip.
Qed.

(** *** Name, parent and ancestors *)

Lemma last_cons_ne {A} (a : A) (l : list A) : l ≠ [] → last (a :: l) = last l.
Proof. destruct l; [congruence | reflexivity]. Qed.

(** X7: the name of a constructed path never raises: it is the last part,
    which is the empty string for the root and a plain segment otherwise. *)
Theorem name_of_constructed (cwd path : string) (prefix suffix : bool)
    (p : WaterButlerPath.t) :
  WaterButlerPath.__init__ cwd path prefix suffix = inr p →
  ∃ w, WaterButlerPath.name p = inr w
       ∧ last (WaterButlerPath.parts p) = Some w
       ∧ (WaterButlerPath.is_root p = true → w = "")
       ∧ (WaterButlerPath.is_root p = false → plain w).
Proof.
  intros (segs & dir & [Hall Hdir] & _ & _ & Hparts & _ & Hr & _)%constructed.
  unfold WaterButlerPath.name, WaterButlerPath.parts, WaterButlerPath.is_root.
  rewrite Hparts, Hr.
  destruct (last segs) as [w|] eqn:Hlast.
  - assert (segs ≠ []) as Hne by (intros ->; discriminate).
    rewrite last_cons_ne, Hlast by assumption.
    exists w. split; [reflexivity|]. split; [reflexivity|]. split.
    + rewrite bool_decide_eq_false_2 by assumption. discriminate.
    + intros _. apply last_Some in Hlast as [l' ->].
      apply Forall_app in Hall as [_ Hw]. now inversion Hw.
  - apply last_None in Hlast as ->. exists "".
    split; [reflexivity|]. split; [reflexivity|]. split; [reflexivity|].
    intros Hf. now rewrite bool_decide_eq_true_2 in Hf.
Qed.

Lemma name_of_constructed_example :
  let p := {| WaterButlerPath._orig_path := "/a/b/";
              WaterButlerPath._parts := [""; "a"; "b"];
              WaterButlerPath._is_dir := true;
              WaterButlerPath._is_root := false;
              WaterButlerPath._prefix := true;
              WaterButlerPath._suffix := true;
              WaterButlerPath._path := "/a/b/" |} in
  ∃ w, WaterButlerPath.name p = inr w
       ∧ last (WaterButlerPath.parts p) = Some w
       ∧ (WaterButlerPath.is_root p = true → w = "")
       ∧ (WaterButlerPath.is_root p = false → plain w).
Proof.
  intros p. apply (name_of_constructed "/srv" "/a/b/" true true p). reflexivity.
Defined.

(** The string that [parent] hands to the constructor. *)
Lemma parent_of_segments (cwd : string) (segs : list string) (dir pre suf : bool)
    (p : WaterButlerPath.t) :
  well_formed segs dir →
  WaterButlerPath.__init__ cwd (of_segments segs dir) pre suf = inr p →
  well_formed (removelast segs) (negb (bool_decide (removelast segs = [])))
  ∧ WaterButlerPath.parent cwd p
    = WaterButlerPath.__init__ cwd
        (of_segments (removelast segs) (negb (bool_decide (removelast segs = []))))
        pre suf.
Proof.
  intros Hwf HP.
  destruct (init_of_segments cwd segs dir pre suf Hwf)
    as (P' & HP' & _ & Hparts & _ & _ & Hpre & Hsuf).
  rewrite HP in HP'. injection HP' as <-.
  split.
  - split; [apply Forall_removelast, Hwf|].
    intros Hd Hnil. rewrite bool_decide_eq_true_2 in Hd by assumption. discriminate.
  - unfold WaterButlerPath.parent, Str.but_last. rewrite Hparts, Hpre, Hsuf.
    f_equal. destruct segs as [|w ws]; [reflexivity|].
    change (removelast ("" :: w :: ws)) with ("" :: removelast (w :: ws)).
    destruct (removelast (w :: ws)); reflexivity.
Qed.

(** X8: a path that is not the root is its parent followed by its name, and
    by the separator when it is a directory. *)
Theorem parent_and_name (cwd path : string) (prefix suffix : bool)
    (p : WaterButlerPath.t) :
  WaterButlerPath.__init__ cwd path prefix suffix = inr p →
  WaterButlerPath.is_root p = false →
  ∃ q w, WaterButlerPath.parent cwd p = inr q
         ∧ WaterButlerPath.name p = inr w
         ∧ WaterButlerPath.__str__ p
           = WaterButlerPath.__str__ q +:+ w
             +:+ (if WaterButlerPath.is_dir p then "/" else "").
Proof.
  intros HP Hroot.
  destruct (constructed _ _ _ _ _ HP)
    as (segs & dir & Hwf & -> & Hstr & Hparts & Hd & Hr & _).
  destruct (parent_of_segments cwd segs dir prefix suffix p Hwf HP) as [Hwf' Hparent].
  destruct (init_of_segments cwd _ _ prefix suffix Hwf') as (q & Hq & Hqstr & _).
  unfold WaterButlerPath.is_root in Hroot. rewrite Hr in Hroot.
  apply bool_decide_eq_false in Hroot.
  destruct (last segs) as [w|] eqn:Hlast; [|now apply last_None in Hlast].
  exists q, w. split; [now rewrite Hparent|].
  unfold WaterButlerPath.name, WaterButlerPath.__str__, WaterButlerPath.is_dir.
  rewrite Hparts, Hstr, Hqstr, Hd. rewrite last_cons_ne by assumption. rewrite Hlast.
  split; [reflexivity|]. rewrite (bool_decide_eq_false_2 (segs = [])) by assumption.
  rewrite orb_false_r.
  apply last_Some in Hlast as [l' ->]. rewrite removelast_last.
  unfold of_segments. destruct l' as [|v vs].
  - reflexivity.
  - rewrite join_snoc by discriminate.
    rewrite !append_cons, !append_assoc. reflexivity.
Qed.

Lemma parent_and_name_example :
  let p := {| WaterButlerPath._orig_path := "/a/b/";
              WaterButlerPath._parts := [""; "a"; "b"];
              WaterButlerPath._is_dir := true;
              WaterButlerPath._is_root := false;
              WaterButlerPath._prefix := true;
              WaterButlerPath._suffix := true;
              WaterButlerPath._path := "/a/b/" |} in
  ∃ q w, WaterButlerPath.parent "/srv" p = inr q
         ∧ WaterButlerPath.name p = inr w
         ∧ WaterButlerPath.__str__ p
           = WaterButlerPath.__str__ q +:+ w
             +:+ (if WaterButlerPath.is_dir p then "/" else "").
Proof.
  intros p. apply (parent_and_name "/srv" "/a/b/" true true p); reflexivity.
Defined.

Lemma length_removelast {A} (l : list A) : length (removelast l) = length l - 1.
Proof.
  induction l as [|a [|b l] IH]; [reflexivity..|].
  change (removelast (a :: b :: l)) with (a :: removelast (b :: l)).
  cbn [length] in *. lia.
Qed.

Lemma ancestor_of_segments (cwd : string) (pre suf : bool) (n : nat) :
  ∀ (segs : list string) (dir : bool) (p : WaterButlerPath.t),
  well_formed segs dir →
  WaterButlerPath.__init__ cwd (of_segments segs dir) pre suf = inr p →
  ∃ r segs' dir',
    well_formed segs' dir'
    ∧ ancestor cwd n p = inr r
    ∧ WaterButlerPath.__init__ cwd (of_segments segs' dir') pre suf = inr r
    ∧ length segs' = length segs - n.
Proof.
  induction n as [|n IH]; intros segs dir p Hwf HP.
  - exists p, segs, dir. repeat split; try assumption; try apply Hwf. lia.
  - destruct (parent_of_segments cwd segs dir pre suf p Hwf HP) as [Hwf' Hparent].
    destruct (init_of_segments cwd _ _ pre suf Hwf') as (q & Hq & _).
    destruct (IH _ _ q Hwf' Hq) as (r & segs' & dir' & Hwf'' & Hr & Hinit & Hlen).
    exists r, segs', dir'. split; [assumption|]. split.
    + cbn [ancestor]. rewrite Hparent, Hq. exact Hr.
    + split; [assumption|]. rewrite Hlen, length_removelast. lia.
Qed.

(** X9: asking for the parent again and again never fails and climbs one
    part at a time, with the same options, until the root, where it stays:
    after as many steps as the path has segments the path is [/]. *)
Theorem ancestors_reach_root (cwd path : string) (prefix suffix : bool)
    (p : WaterButlerPath.t) (n : nat) :
  WaterButlerPath.__init__ cwd path prefix suffix = inr p →
  ∃ r, ancestor cwd n p = inr r
       ∧ length (WaterButlerPath.parts r)
         = S (length (WaterButlerPath.parts p) - 1 - n)
       ∧ WaterButlerPath._prefix r = WaterButlerPath._prefix p
       ∧ WaterButlerPath._suffix r = WaterButlerPath._suffix p
       ∧ (length (WaterButlerPath.parts p) - 1 ≤ n →
          WaterButlerPath.__str__ r = "/" ∧ WaterButlerPath.is_root r = true).
Proof.
  intros HP.
  destruct (constructed _ _ _ _ _ HP)
    as (segs & dir & Hwf & -> & _ & Hparts & _ & _ & Hpre & Hsuf).
  destruct (ancestor_of_segments cwd prefix suffix n segs dir p Hwf HP)
    as (r & segs' & dir' & Hwf' & Hr & Hinit & Hlen).
  destruct (constructed _ _ _ _ _ Hinit)
    as (segs'' & dir'' & [_ Hdir''] & _ & Hrstr & Hrparts & _ & Hrroot & Hrpre & Hrsuf).
  exists r. split; [assumption|].
  unfold WaterButlerPath.parts, WaterButlerPath.__str__, WaterButlerPath.is_root.
  rewrite Hparts, Hpre, Hsuf, Hrpre, Hrsuf.
  assert (length segs'' = length segs - n) as Hlen''.
  { rewrite <- Hlen. destruct (init_of_segments cwd segs' dir' prefix suffix Hwf')
      as (r' & Hr' & _ & Hr'parts & _).
    rewrite Hinit in Hr'. injection Hr' as <-.
    rewrite Hrparts in Hr'parts. now injection Hr'parts as ->. }
  rewrite Hrparts. cbn [length]. split; [lia|]. split; [reflexivity|].
  split; [reflexivity|]. intros Hn.
  assert (segs'' = []) as -> by (destruct segs''; [reflexivity | cbn [length] in *; lia]).
  rewrite Hrstr, Hrroot. destruct dir''; [now specialize (Hdir'' eq_refl)|].
  split; reflexivity.
Qed.

Lemma ancestors_reach_root_example :
  let p := {| WaterButlerPath._orig_path := "/a/b/";
              WaterButlerPath._parts := [""; "a"; "b"];
              WaterButlerPath._is_dir := true;
              WaterButlerPath._is_root := false;
              WaterButlerPath._prefix := true;
              WaterButlerPath._suffix := false;
              WaterButlerPath._path := "/a/b" |} in
  ∃ r, ancestor "/srv" 2 p = inr r
       ∧ length (WaterButlerPath.parts r)
         = S (length (WaterButlerPath.parts p) - 1 - 2)
       ∧ WaterButlerPath._prefix r = WaterButlerPath._prefix p
       ∧ WaterButlerPath._suffix r = WaterButlerPath._suffix p
       ∧ (length (WaterButlerPath.parts p) - 1 ≤ 2 →
          WaterButlerPath.__str__ r = "/" ∧ WaterButlerPath.is_root r = true).
Proof.
  intros p. apply (ancestors_reach_root "/srv" "/a/b/" true false p 2). reflexivity.
Defined.

(* ===================================================================== *)
(** ** More about the OwnCloud metadata *)
(* ===================================================================== *)




(** *** The name of an entry *)

Lemma last_split_cons_slash (s : string) :
  last (Str.split "/" (String "/" s)) = last (Str.split "/" s).
Proof.
  rewrite split_cons_slash. apply last_cons_ne, split_nonempty.
Qed.

Lemma last_split_lstrip (s : string) :
  last (Str.split "/" (Str.lstrip "/" s)) = last (Str.split "/" s).
Proof.
  unfold Str.lstrip. induction s as [|a s IH]; [reflexivity|].
  cbn [Str.lstrip_by]. ascii_eqb a "/"%char; [|reflexivity].
  now rewrite last_split_cons_slash.
Qed.

Lemma split_app_two (x y : string) :
  2 ≤ length (Str.split "/" (x +:+ String "/" y)).
Proof.
  induction x as [|a x IH].
  - change ("" +:+ ?z) with z. rewrite split_cons_slash.
    pose proof (split_nonempty "/" y). destruct (Str.split "/" y); [congruence|].
    cbn [length]. lia.
  - rewrite append_cons. cbn [Str.split]. destruct (Ascii.eqb a "/").
    + cbn [length]. lia.
    + destruct (Str.split "/" (x +:+ String "/" y)); cbn [length] in *; lia.
Qed.

Lemma last_split_app (x y : string) :
  last (Str.split "/" (x +:+ String "/" y)) = last (Str.split "/" y).
Proof.
  induction x as [|a x IH].
  - apply last_split_cons_slash.
  - rewrite append_cons. cbn [Str.split]. destruct (Ascii.eqb a "/").
    + rewrite last_cons_ne by apply split_nonempty. exact IH.
    + pose proof (split_app_two x y) as Hlen.
      destruct (Str.split "/" (x +:+ String "/" y)) as [|w0 [|w1 ws]];
        cbn [length] in Hlen; try lia.
      rewrite <- IH. reflexivity.
Qed.

Lemma strip_app_slash (s : string) :
  Str.strip "/" (s +:+ "/") = Str.strip "/" s.
Proof. unfold Str.strip. now rewrite rstrip_app_slash. Qed.

(** X11: the name of an entry never raises and holds no separator, and it
    is the same with one more separator at the end of the href. *)
Theorem owncloud_name_spec (c : owncloud.kind) (href folder : string)
    (attrs : option (gmap string pyval)) :
  ∃ w, owncloud.name (owncloud.__init__ c href folder attrs) = inr w
       ∧ Str.contains "/" w = false
       ∧ owncloud.name (owncloud.__init__ c (href +:+ "/") folder attrs) = inr w.
Proof.
  unfold owncloud.name, owncloud.__init__. cbn [owncloud._href].
  rewrite strip_app_slash.
  pose proof (split_nonempty "/" (Str.strip "/" href)) as Hne.
  pose proof (split_slash_free (Str.strip "/" href)) as Hsf.
  destruct (last (Str.split "/" (Str.strip "/" href))) as [w|] eqn:Hlast;
    [|now apply last_None in Hlast].
  exists w. split; [reflexivity|]. split; [|reflexivity].
  apply last_Some in Hlast as [l' Hl']. rewrite Hl' in Hsf.
  apply Forall_app in Hsf as [_ Hw]. now inversion Hw.
Qed.

(** X12: for an href that ends with a separator followed by a string [w]
    that is not empty and holds no separator, the name is [w], whatever
    stands before. *)
Theorem owncloud_name_last (c : owncloud.kind) (d w folder : string)
    (attrs : option (gmap string pyval)) :
  w ≠ "" → Str.contains "/" w = false →
  owncloud.name (owncloud.__init__ c (d +:+ String "/" w) folder attrs) = inr w.
Proof.
  unfold owncloud.name, owncloud.__init__. cbn [owncloud._href].
  intros Hw Hsf. unfold Str.strip.
  rewrite last_split_lstrip, rstrip_no_trailing.
  - now rewrite last_split_app, split_one_slash_free.
  - change (String "/" w) with ("/" +:+ w).
    rewrite <- append_assoc, endswith_app by assumption.
    now apply endswith_slash_free.
Qed.

Lemma owncloud_name_last_example :
  owncloud.name
    (owncloud.__init__ owncloud.file ("/remote.php/webdav/docs" +:+ String "/" "a.txt")
       "/remote.php/webdav" None)
  = inr "a.txt".
Proof.
  apply (owncloud_name_last owncloud.file "/remote.php/webdav/docs" "a.txt");
    [discriminate | reflexivity].
Defined.

(** X13: the size is a normal form: a size read from any entry, put back as
    the content length of any entry, is read as itself. *)
Theorem owncloud_size_normal (c c' : owncloud.kind) (href folder href' folder' : string)
    (attrs : option (gmap string pyval)) (attrs' : gmap string pyval) (s : string) :
  owncloud.size (owncloud.__init__ c href folder attrs) = inr (PyStr s) →
  owncloud.size
    (owncloud.__init__ c' href' folder'
       (Some (<["{DAV:}getcontentlength" := PyStr s]> attrs')))
  = inr (PyStr s).
Proof.
  unfold owncloud.size, owncloud.__init__. cbn [owncloud.attributes default].
  intros Hsize. unfold id. rewrite lookup_insert_eq.
  destruct (default ∅ attrs !! "{DAV:}getcontentlength") as [v|]; [|discriminate].
  destruct (py_int v) as [e|n]; [discriminate|]. injection Hsize as <-.
  cbn [py_int]. now rewrite int_of_string_str_of_int.
Qed.

Lemma owncloud_size_normal_example :
  owncloud.size
    (owncloud.__init__ owncloud.folder "/dav/docs/" "/dav"
       (Some (<["{DAV:}getcontentlength" := PyStr "42"]> ∅)))
  = inr (PyStr "42").
Proof.
  apply (owncloud_size_normal owncloud.file owncloud.folder "/dav/a.txt" "/dav"
           "/dav/docs/" "/dav"
           (Some {[ "{DAV:}getcontentlength" := PyStr " 0_042 " ]}) ∅ "42").
  vm_compute. reflexivity.
Defined.

(* ===================================================================== *)
(** ** More about the Dryad provider *)
(* ===================================================================== *)

(** *** Coroutines that only read *)

Lemma reads_ret {A} (a : A) : reads 0 (ret a).
Proof.
  intros w. exists []. cbn. rewrite app_nil_r. repeat split; [lia | constructor].
Qed.

Lemma reads_raise {A} (e : exn) : reads 0 (@raise A e).
Proof.
  intros w. exists []. cbn. rewrite app_nil_r. repeat split; [lia | constructor].
Qed.

Lemma reads_lift {A} (r : result A) : reads 0 (lift r).
Proof.
  intros w. exists []. cbn. rewrite app_nil_r. repeat split; [lia | constructor].
Qed.

Lemma reads_mono {A} (n m : nat) (c : coroutine A) :
  n ≤ m → reads n c → reads m c.
Proof.
  intros Hnm Hc w. destruct (Hc w) as (new & Hreq & Hlen & Hget & Hpaths).
  exists new. repeat split; try assumption. lia.
Qed.

Lemma reads_bind {A B} (n m : nat) (c : coroutine A) (k : A → coroutine B) :
  reads n c → (∀ a, reads m (k a)) → reads (n + m) (bind c k).
Proof.
  intros Hc Hk w. unfold bind.
  destruct (Hc w) as (new & Hreq & Hlen & Hget & Hpaths).
  destruct (c w) as [[e|a] w1]; cbn [snd] in *.
  - exists new. repeat split; try assumption. lia.
  - destruct (Hk a w1) as (new' & Hreq' & Hlen' & Hget' & Hpaths').
    exists (new ++ new'). rewrite Hreq', Hreq, Hpaths', Hpaths, app_assoc, length_app.
    repeat split; [lia|]. now apply Forall_app.
Qed.

Lemma reads_index {A} (l : list A) (i : nat) : reads 0 (index l i).
Proof. unfold index. destruct (l !! i); [apply reads_ret | apply reads_raise]. Qed.

Lemma reads_last_item {A} (l : list A) : reads 0 (last_item l).
Proof. unfold last_item. destruct (last l); [apply reads_ret | apply reads_raise]. Qed.

Lemma reads_make_request (transport : list request → request → response)
    (url : string) (expects : list Z) (throws : Z → exn) :
  reads 1 (dryad.make_request transport "GET" url expects throws).
Proof.
  intros w. exists [{| req_method := "GET"; req_url := url |}].
  unfold dryad.make_request. case_bool_decide; cbn; repeat split; try lia;
    constructor; (reflexivity || constructor).
Qed.

Lemma reads_only_of_reads {A} (n : nat) (c : coroutine A) : reads n c → reads_only c.
Proof.
  intros Hc w. destruct (Hc w) as (new & Hreq & _ & Hget & Hpaths). eauto.
Qed.

Lemma reads_only_bind {A B} (c : coroutine A) (k : A → coroutine B) :
  reads_only c → (∀ a, reads_only (k a)) → reads_only (bind c k).
Proof.
  intros Hc Hk w. unfold bind.
  destruct (Hc w) as (new & Hreq & Hget & Hpaths).
  destruct (c w) as [[e|a] w1]; cbn [snd] in *.
  - eauto.
  - destruct (Hk a w1) as (new' & Hreq' & Hget' & Hpaths').
    exists (new ++ new'). rewrite Hreq', Hreq, Hpaths', Hpaths, app_assoc.
    repeat split. now apply Forall_app.
Qed.

Lemma reads_file_metadata (meta_url file_url : string)
    (transport : list request → request → response)
    (parse_header : string → string * gmap string string)
    (self : DryadProvider) (path : string) :
  reads 3 (dryad._file_metadata meta_url file_url transport parse_header self path).
Proof.
  unfold dryad._file_metadata.
  apply (reads_bind 1 2); [apply reads_make_request|]. intros r1.
  apply (reads_bind 1 1); [apply reads_make_request|]. intros r2.
  apply (reads_bind 1 0); [apply reads_make_request|]. intros r3.
  case_match; [apply reads_ret | apply reads_raise].
Qed.

Lemma reads_package_metadata (meta_url : string)
    (transport : list request → request → response) (self : DryadProvider) :
  reads 1 (dryad._package_metadata meta_url transport self).
Proof.
  unfold dryad._package_metadata.
  apply (reads_bind 0 1); [apply reads_last_item|]. intros number.
  apply (reads_bind 1 0); [apply reads_make_request|]. intros resp.
  apply reads_ret.
Qed.

Lemma reads_validate_path (cwd : string) (self : DryadProvider) (raw : string) :
  reads 0 (dryad.validate_path cwd self raw).
Proof.
  unfold dryad.validate_path.
  apply (reads_bind 0 0); [apply reads_lift|]. intros p.
  repeat case_match; (apply reads_ret || apply reads_raise).
Qed.

(** X14: the operations that look things up only read.  Whatever they
    return or raise, they have left every Path object as it was and have
    sent nothing but [GET] requests: none for [validate_path], at most one
    for [validate_v1_path] and for the metadata of the package, at most
    three for the metadata of a file and at most four for [download]. *)
Theorem lookups_only_read (cwd meta_url file_url : string)
    (transport : list request → request → response)
    (parse_header : string → string * gmap string string)
    (name_of : dryad.DryadFileMetadata → string)
    (size_of : dryad.DryadFileMetadata → pyval)
    (self : DryadProvider) (raw : string) (path : WaterButlerPath.t) :
  reads 0 (dryad.validate_path cwd self raw)
  ∧ reads 1 (dryad.validate_v1_path cwd meta_url transport self raw)
  ∧ reads 1 (dryad._package_metadata meta_url transport self)
  ∧ reads 3 (dryad._file_metadata meta_url file_url transport parse_header self raw)
  ∧ reads 4 (dryad.download meta_url file_url transport parse_header
               name_of size_of self path).
Proof.
  split; [apply reads_validate_path|]. split; [|split; [|split]].
  - unfold dryad.validate_v1_path.
    apply (reads_bind 0 1); [apply reads_validate_path|]. intros p.
    destruct (WaterButlerPath.is_root p); [eapply reads_mono, reads_ret; lia|].
    apply (reads_bind 0 1); [apply reads_index|]. intros part1.
    apply (reads_bind 0 1).
    { destruct (WaterButlerPath.is_file p); [|apply reads_ret].
      apply (reads_bind 0 0); [apply reads_index|]. intros part2. apply reads_ret. }
    intros url. apply (reads_bind 1 0); [apply reads_make_request|]. intros resp.
    case_match; [apply reads_raise | apply reads_ret].
  - apply reads_package_metadata.
  - apply reads_file_metadata.
  - unfold dryad.download.
    apply (reads_bind 1 3); [apply reads_make_request|]. intros resp.
    apply (reads_bind 3 0); [apply reads_file_metadata|]. intros m.
    apply reads_ret.
Qed.

Lemma reads_only_children (meta_url file_url : string)
    (transport : list request → request → response)
    (parse_header : string → string * gmap string string)
    (self : DryadProvider) (parts : list string) :
  ∀ children,
  reads_only (dryad.metadata_children meta_url file_url transport parse_header
                self parts children).
Proof.
  induction parts as [|child rest IH]; intros children; cbn [dryad.metadata_children].
  - eapply reads_only_of_reads, reads_ret.
  - apply reads_only_bind; [eapply reads_only_of_reads, reads_last_item|]. intros d.
    apply reads_only_bind; [eapply reads_only_of_reads, reads_file_metadata|].
    intros m. apply IH.
Qed.

(** X15: [metadata] only reads as well, for the root, a file or a folder
    with any number of files: nothing but [GET] requests, and no Path object
    changed. *)
Theorem metadata_only_reads (meta_url file_url : string)
    (transport : list request → request → response)
    (parse_header : string → string * gmap string string)
    (file_parts : dryad.DryadPackageMetadata → list string)
    (self : DryadProvider) (path : WaterButlerPath.t) :
  reads_only (dryad.metadata meta_url file_url transport parse_header file_parts
                self path).
Proof.
  unfold dryad.metadata.
  apply reads_only_bind; [eapply reads_only_of_reads, reads_package_metadata|].
  intros package. repeat case_match.
  - eapply reads_only_of_reads, reads_ret.
  - apply reads_only_bind; [eapply reads_only_of_reads, reads_file_metadata|].
    intros m. eapply reads_only_of_reads, reads_ret.
  - apply reads_only_bind; [apply reads_only_children|].
    intros l. eapply reads_only_of_reads, reads_ret.
Qed.

(** *** The paths that [validate_path] accepts *)

Lemma validate_path_run (cwd : string) (self : DryadProvider) (raw : string) (w : world) :
  dryad.validate_path cwd self raw w
  = (match WaterButlerPath.__init__ cwd raw true true with
     | inl e => inl e
     | inr p =>
         if WaterButlerPath.is_root p || depth_rule p then inr p
         else inl (NotFoundError raw)
     end, w).
Proof.
  unfold dryad.validate_path, bind, lift, depth_rule.
  destruct (WaterButlerPath.__init__ cwd raw true true) as [e|p]; [reflexivity|].
  destruct (WaterButlerPath.is_root p); [reflexivity|].
  destruct (Nat.eqb (length (WaterButlerPath.parts p)) 2
            && negb (WaterButlerPath.is_dir p)); [reflexivity|].
  destruct (Nat.eqb (length (WaterButlerPath.parts p)) 3
            && negb (WaterButlerPath.is_file p)); reflexivity.
Qed.

Lemma depth_rule_of_segments (cwd : string) (segs : list string) (dir pre suf : bool)
    (p : WaterButlerPath.t) :
  well_formed segs dir →
  WaterButlerPath.__init__ cwd (of_segments segs dir) pre suf = inr p →
  WaterButlerPath.is_root p || depth_rule p = true
  ↔ (length segs = 1 → dir = true) ∧ (length segs = 2 → dir = false).
Proof.
  intros Hwf HP.
  destruct (init_of_segments cwd segs dir pre suf Hwf)
    as (P' & HP' & _ & Hparts & Hd & Hr & _).
  rewrite HP in HP'. injection HP' as <-.
  unfold depth_rule, WaterButlerPath.is_root, WaterButlerPath.parts,
    WaterButlerPath.is_file, WaterButlerPath.is_dir. rewrite Hparts, Hd, Hr.
  destruct Hwf as [_ Hdir].
  destruct segs as [|a [|b [|c rest]]]; destruct dir; cbn;
    try (now specialize (Hdir eq_refl));
    (split;
     [ intros H; try discriminate H; split; intros Hlen;
       try reflexivity; discriminate Hlen
     | intros [H1 H2]; try reflexivity;
       try (now specialize (H1 eq_refl)); now specialize (H2 eq_refl) ]).
Qed.

(** X16: [validate_path] returns a path, without touching the world, exactly
    for the well-formed strings in which a single segment is a directory and
    a pair of segments is a file; the root and every path of three segments
    or more are accepted, file or directory. *)
Theorem validate_path_accepts (cwd : string) (self : DryadProvider) (raw : string)
    (w : world) :
  (∃ p, dryad.validate_path cwd self raw w = (inr p, w))
  ↔ ∃ segs dir, well_formed segs dir ∧ raw = of_segments segs dir
                ∧ (length segs = 1 → dir = true)
                ∧ (length segs = 2 → dir = false).
Proof.
  rewrite validate_path_run. split.
  - intros [p Hp]. injection Hp as Hp.
    destruct (WaterButlerPath.__init__ cwd raw true true) as [e|p0] eqn:Hinit;
      [discriminate|].
    destruct (init_shape _ _ _ _ _ Hinit) as (segs & dir & Hwf & ->).
    exists segs, dir. split; [assumption|]. split; [reflexivity|].
    apply (depth_rule_of_segments cwd segs dir true true p0 Hwf Hinit).
    destruct (WaterButlerPath.is_root p0 || depth_rule p0); [reflexivity|discriminate].
  - intros (segs & dir & Hwf & -> & Hrule).
    destruct (init_of_segments cwd segs dir true true Hwf) as (p & Hp & _).
    rewrite Hp.
    rewrite (proj2 (depth_rule_of_segments cwd segs dir true true p Hwf Hp) Hrule).
    eauto.
Qed.

(** *** The lookup of [validate_v1_path], for every status *)

Lemma validate_v1_path_run (cwd meta_url : string)
    (transport : list request → request → response) (self : DryadProvider)
    (raw : string) (p : WaterButlerPath.t) (w : world) :
  WaterButlerPath.__init__ cwd raw true true = inr p →
  WaterButlerPath.is_root p = false →
  depth_rule p = true →
  dryad.validate_v1_path cwd meta_url transport self raw w
  = (let st := status (transport (requests w) (lookup meta_url p)) in
     if bool_decide (st ∈ [200; 404]%Z)
     then if Z.eqb st 404 then inl (NotFoundError raw) else inr p
     else inl (MetadataError st),
     asked (lookup meta_url p) w).
Proof.
  intros HP Hroot Hdepth.
  destruct (parts_of_non_root _ _ _ _ _ HP Hroot) as (s1 & rest & Hparts & Hsecond).
  unfold dryad.validate_v1_path, bind. rewrite validate_path_run, HP, Hroot, Hdepth.
  cbn [orb]. rewrite Hroot. unfold lookup. rewrite Hparts.
  unfold index. cbn [lookup list_lookup]. unfold ret at 1.
  destruct (WaterButlerPath.is_file p) eqn:Hfile.
  - destruct (Hsecond Hdepth eq_refl) as (s2 & rest' & ->).
    cbn. unfold dryad.make_request, dryad.value, asked.
    destruct (bool_decide (_ ∈ [200; 404]%Z)); [|reflexivity].
    destruct (Z.eqb _ 404); reflexivity.
  - cbn. unfold dryad.make_request, dryad.value, asked.
    destruct (bool_decide (_ ∈ [200; 404]%Z)); [|reflexivity].
    destruct (Z.eqb _ 404); reflexivity.
Qed.

(** X17: for a path that obeys the depth rule, a status of the lookup other
    than 200 and 404 (206 and 500 alike) makes [validate_v1_path] raise
    [MetadataError] with that status, after the one lookup. *)
Theorem validate_v1_path_refused (cwd meta_url : string)
    (transport : list request → request → response) (self : DryadProvider)
    (raw : string) (p : WaterButlerPath.t) (w : world) :
  WaterButlerPath.__init__ cwd raw true true = inr p →
  WaterButlerPath.is_root p = false →
  depth_rule p = true →
  status (transport (requests w) (lookup meta_url p)) ≠ 200%Z →
  status (transport (requests w) (lookup meta_url p)) ≠ 404%Z →
  dryad.validate_v1_path cwd meta_url transport self raw w
  = (inl (MetadataError (status (transport (requests w) (lookup meta_url p)))),
     asked (lookup meta_url p) w).
Proof.
  intros HP Hroot Hdepth H200 H404.
  rewrite (validate_v1_path_run _ _ _ _ _ p) by assumption. cbv zeta.
  rewrite bool_decide_eq_false_2; [reflexivity|].
  intros [?|[?|[]%elem_of_nil]%elem_of_cons]%elem_of_cons; contradiction.
Qed.

Lemma validate_v1_path_refused_example :
  let partial := λ (_ : list request) (_ : request),
                   {| status := 206; body := ""; headers := ∅ |} in
  let p := {| WaterButlerPath._orig_path := "/4/";
              WaterButlerPath._parts := [""; "4"];
              WaterButlerPath._is_dir := true;
              WaterButlerPath._is_root := false;
              WaterButlerPath._prefix := true;
              WaterButlerPath._suffix := true;
              WaterButlerPath._path := "/4/" |} in
  dryad.validate_v1_path "/srv" "https://example.org/meta/" partial a_provider
    "/4/" no_requests
  = (inl (MetadataError (status (partial (requests no_requests)
                                   (lookup "https://example.org/meta/" p)))),
     asked (lookup "https://example.org/meta/" p) no_requests).
Proof.
  intros partial p.
  apply (validate_v1_path_refused "/srv" "https://example.org/meta/" partial
           a_provider "/4/" p no_requests); (reflexivity || discriminate).
Defined.

(** *** The argument of [_file_metadata] *)

Lemma endswith_lstrip (s : string) :
  Str.endswith "/" s = false → Str.endswith "/" (Str.lstrip "/" s) = false.
Proof.
  unfold Str.lstrip. induction s as [|a s IH]; [reflexivity|].
  cbn [Str.lstrip_by]. destruct (Ascii.eqb a "/"); [|auto].
  cbn [Str.endswith]. intros [_ H]%orb_false_elim. auto.
Qed.

Lemma strip_idempotent (s : string) :
  Str.strip "/" (Str.strip "/" s) = Str.strip "/" s.
Proof.
  unfold Str.strip.
  rewrite (rstrip_no_trailing (Str.lstrip "/" (Str.rstrip "/" s)))
    by apply endswith_lstrip, endswith_rstrip.
  apply lstrip_id, lstrip_no_slash.
Qed.

Lemma strip_cons_slash (s : string) :
  Str.strip "/" (String "/" s) = Str.strip "/" s.
Proof.
  unfold Str.strip, Str.rstrip, Str.lstrip. cbn [Str.rstrip_by].
  change (Ascii.eqb "/" "/") with true. cbn [andb].
  destruct (String.eqb_spec (Str.rstrip_by (λ a, Ascii.eqb a "/") s) "") as [->|_];
    reflexivity.
Qed.

(** X18: [_file_metadata] reads its argument up to the separators around it:
    the stripped argument, one more separator in front and one more behind
    give the same requests and the same result. *)
Theorem file_metadata_ignores_separators (meta_url file_url : string)
    (transport : list request → request → response)
    (parse_header : string → string * gmap string string)
    (self : DryadProvider) (path : string) :
  dryad._file_metadata meta_url file_url transport parse_header self
    (Str.strip "/" path)
  = dryad._file_metadata meta_url file_url transport parse_header self path
  ∧ dryad._file_metadata meta_url file_url transport parse_header self
      (String "/" path)
    = dryad._file_metadata meta_url file_url transport parse_header self path
  ∧ dryad._file_metadata meta_url file_url transport parse_header self
      (path +:+ "/")
    = dryad._file_metadata meta_url file_url transport parse_header self path.
Proof.
  unfold dryad._file_metadata.
  rewrite strip_idempotent, strip_cons_slash, strip_app_slash. repeat split.
Qed.

(** *** [metadata] and [download], request by request *)

Lemma last_item_split (sep : ascii) (s : string) (w : world) :
  last_item (Str.split sep s) w = (inr (default "" (last (Str.split sep s))), w).
Proof.
  unfold last_item. destruct (last (Str.split sep s)) eqn:Hlast; [reflexivity|].
  apply last_None in Hlast. now apply split_nonempty in Hlast.
Qed.

Lemma package_metadata_run (meta_url : string)
    (transport : list request → request → response) (self : DryadProvider)
    (w : world) :
  dryad._package_metadata meta_url transport self w
  = (let resp := transport (requests w) (package_request meta_url self) in
     if bool_decide (status resp ∈ [200; 206]%Z)
     then inr {| dryad.pm_body_text := body resp; dryad.pm_doi := doi self |}
     else inl (MetadataError (status resp)),
     asked (package_request meta_url self) w).
Proof.
  unfold dryad._package_metadata, bind. rewrite last_item_split.
  unfold dryad.make_request, package_request, number_of, asked. cbv zeta.
  destruct (bool_decide _); reflexivity.
Qed.

Lemma file_metadata_ok (meta_url file_url : string)
    (transport : list request → request → response)
    (parse_header : string → string * gmap string string)
    (self : DryadProvider) (path : string) (w : world) :
  serves transport parse_header →
  ∃ m, dryad._file_metadata meta_url file_url transport parse_header self path w
       = (inr m, {| requests := requests w ++ file_requests meta_url file_url path;
                    paths := paths w |})
       ∧ dryad.fm_doi m = "doi:10.5061/dryad." +:+ Str.strip "/" path.
Proof.
  intros Hs. unfold dryad._file_metadata, bind, dryad.make_request, file_requests.
  cbn [requests paths].
  rewrite !bool_decide_eq_true_2 by apply Hs.
  match goal with
  | |- context [snd (parse_header ?h) !! "filename"] =>
      destruct (snd (parse_header h) !! "filename") as [fn|] eqn:Hfn
  end.
  - eexists. unfold ret. cbn [requests paths]. rewrite <- !app_assoc. cbn [app].
    split; reflexivity.
  - exfalso. match type of Hfn with
    | snd (parse_header (default "" (headers (transport ?log ?rq) !! _))) !! _ = None =>
        destruct (proj2 (Hs log rq)) as [fn Hfn']; congruence
    end.
Qed.

(** X19: the metadata of the root is the list of the one package, built from
    the response to the one request that is sent, for the last component of
    the DOI of the provider; a response that is not 200 or 206 raises
    [MetadataError] with its status. *)
Theorem metadata_of_root (meta_url file_url : string)
    (transport : list request → request → response)
    (parse_header : string → string * gmap string string)
    (file_parts : dryad.DryadPackageMetadata → list string)
    (self : DryadProvider) (path : WaterButlerPath.t) (w : world) :
  WaterButlerPath.__str__ path = "/" →
  dryad.metadata meta_url file_url transport parse_header file_parts self path w
  = (let resp := transport (requests w) (package_request meta_url self) in
     if bool_decide (status resp ∈ [200; 206]%Z)
     then inr (dryad.PackageList
                 [{| dryad.pm_body_text := body resp; dryad.pm_doi := doi self |}])
     else inl (MetadataError (status resp)),
     asked (package_request meta_url self) w).
Proof.
  intros Hroot. unfold dryad.metadata, bind. rewrite package_metadata_run, Hroot.
  cbv zeta. destruct (bool_decide _); reflexivity.
Qed.

Lemma metadata_of_root_example :
  dryad.metadata "https://example.org/meta/" "https://example.org/file/"
    reports_present parse_header_line (λ _, []) a_provider
    {| WaterButlerPath._orig_path := "/";
       WaterButlerPath._parts := [""];
       WaterButlerPath._is_dir := true;
       WaterButlerPath._is_root := true;
       WaterButlerPath._prefix := true;
       WaterButlerPath._suffix := true;
       WaterButlerPath._path := "/" |} no_requests
  = (inr (dryad.PackageList
            [{| dryad.pm_body_text := ""; dryad.pm_doi := "doi:10.5061/dryad.4" |}]),
     {| requests := [{| req_method := "GET";
                        req_url := "https://example.org/meta/4" |}];
        paths := ∅ |}).
Proof.
  apply (metadata_of_root "https://example.org/meta/" "https://example.org/file/"
           reports_present parse_header_line (λ _, []) a_provider).
  reflexivity.
Defined.

(** X20: when the request for the package is refused, [metadata] raises
    [MetadataError] with the status, for every path, file or folder, after
    that one request. *)
Theorem metadata_refused (meta_url file_url : string)
    (transport : list request → request → response)
    (parse_header : string → string * gmap string string)
    (file_parts : dryad.DryadPackageMetadata → list string)
    (self : DryadProvider) (path : WaterButlerPath.t) (w : world) :
  status (transport (requests w) (package_request meta_url self)) ≠ 200%Z →
  status (transport (requests w) (package_request meta_url self)) ≠ 206%Z →
  dryad.metadata meta_url file_url transport parse_header file_parts self path w
  = (inl (MetadataError
            (status (transport (requests w) (package_request meta_url self)))),
     asked (package_request meta_url self) w).
Proof.
  intros H200 H206. unfold dryad.metadata, bind. rewrite package_metadata_run.
  cbv zeta. rewrite bool_decide_eq_false_2; [reflexivity|].
  intros [?|[?|[]%elem_of_nil]%elem_of_cons]%elem_of_cons; contradiction.
Qed.

Lemma metadata_refused_example :
  dryad.metadata "https://example.org/meta/" "https://example.org/file/"
    reports_absent parse_header_line (λ _, []) a_provider
    {| WaterButlerPath._orig_path := "/4/1";
       WaterButlerPath._parts := [""; "4"; "1"];
       WaterButlerPath._is_dir := false;
       WaterButlerPath._is_root := false;
       WaterButlerPath._prefix := true;
       WaterButlerPath._suffix := true;
       WaterButlerPath._path := "/4/1" |} no_requests
  = (inl (MetadataError 404),
     {| requests := [{| req_method := "GET";
                        req_url := "https://example.org/meta/4" |}];
        paths := ∅ |}).
Proof.
  apply (metadata_refused "https://example.org/meta/" "https://example.org/file/"
           reports_absent parse_header_line (λ _, []) a_provider);
    discriminate.
Defined.

Lemma metadata_children_ok (meta_url file_url : string)
    (transport : list request → request → response)
    (parse_header : string → string * gmap string string)
    (self : DryadProvider) (parts : list string) :
  serves transport parse_header →
  ∀ children w,
  ∃ l, dryad.metadata_children meta_url file_url transport parse_header self
         parts children w
       = (inr (children ++ l),
          {| requests := requests w ++ children_requests meta_url file_url parts;
             paths := paths w |})
       ∧ map dryad.fm_doi l
         = map (λ child, "doi:10.5061/dryad." +:+ Str.strip "/" (number_of child))
             parts.
Proof.
  intros Hs. induction parts as [|child rest IH]; intros children w.
  - exists []. cbn. rewrite !app_nil_r. destruct w. split; reflexivity.
  - cbn [dryad.metadata_children]. unfold bind at 1. rewrite last_item_split.
    fold (number_of child). unfold bind.
    destruct (file_metadata_ok meta_url file_url transport parse_header self
                (number_of child) w Hs) as (m & -> & Hdoi).
    destruct (IH (children ++ [m])
                {| requests := requests w ++ file_requests meta_url file_url (number_of child);
                   paths := paths w |}) as (l & -> & Hl).
    exists (m :: l). cbn [requests paths children_requests flat_map map].
    rewrite <- !app_assoc, Hdoi, Hl. split; reflexivity.
Qed.

(** X21: against a server that serves every request, the metadata of a
    folder other than the root is the list of the metadata of the files of
    the package, in their order, each asked for by the last component of its
    identifier: one request for the package and three for each file.  The
    folder that is asked for plays no part. *)
Theorem metadata_of_folder (meta_url file_url : string)
    (transport : list request → request → response)
    (parse_header : string → string * gmap string string)
    (file_parts : dryad.DryadPackageMetadata → list string)
    (self : DryadProvider) (path path' : WaterButlerPath.t) (w : world) :
  serves transport parse_header →
  WaterButlerPath.__str__ path ≠ "/" → WaterButlerPath.is_dir path = true →
  WaterButlerPath.__str__ path' ≠ "/" → WaterButlerPath.is_dir path' = true →
  let package :=
    {| dryad.pm_body_text := body (transport (requests w) (package_request meta_url self));
       dryad.pm_doi := doi self |} in
  (∃ l, dryad.metadata meta_url file_url transport parse_header file_parts self path w
        = (inr (dryad.Children l),
           {| requests := requests w
                          ++ package_request meta_url self
                             :: children_requests meta_url file_url (file_parts package);
              paths := paths w |})
        ∧ map dryad.fm_doi l
          = map (λ child, "doi:10.5061/dryad." +:+ Str.strip "/" (number_of child))
              (file_parts package))
  ∧ dryad.metadata meta_url file_url transport parse_header file_parts self path' w
    = dryad.metadata meta_url file_url transport parse_header file_parts self path w.
Proof.
  intros Hs Hne Hdir Hne' Hdir' package.
  assert (∀ q, WaterButlerPath.__str__ q ≠ "/" → WaterButlerPath.is_dir q = true →
            dryad.metadata meta_url file_url transport parse_header file_parts self q w
            = bind (dryad.metadata_children meta_url file_url transport parse_header
                      self (file_parts package) [])
                (λ l, ret (dryad.Children l))
                (asked (package_request meta_url self) w)) as Hrun.
  { intros q Hq Hqdir. unfold dryad.metadata. unfold bind at 1.
    rewrite package_metadata_run. cbv zeta.
    rewrite bool_decide_eq_true_2 by apply Hs.
    apply String.eqb_neq in Hq. rewrite Hq, Hqdir. reflexivity. }
  split; [|now rewrite !Hrun].
  rewrite Hrun by assumption. unfold bind.
  destruct (metadata_children_ok meta_url file_url transport parse_header self
              (file_parts package) Hs [] (asked (package_request meta_url self) w))
    as (l & -> & Hl).
  exists l. unfold ret, asked. cbn [requests paths app].
  rewrite <- app_assoc. split; [reflexivity | assumption].
Qed.

Lemma metadata_of_folder_example :
  let parts := λ (_ : dryad.DryadPackageMetadata),
                 ["doi:10.5061/dryad.4/1"; "doi:10.5061/dryad.4/2"] in
  let folder := {| WaterButlerPath._orig_path := "/4/";
                   WaterButlerPath._parts := [""; "4"];
                   WaterButlerPath._is_dir := true;
                   WaterButlerPath._is_root := false;
                   WaterButlerPath._prefix := true;
                   WaterButlerPath._suffix := true;
                   WaterButlerPath._path := "/4/" |} in
  let other := {| WaterButlerPath._orig_path := "/9/x/y/";
                  WaterButlerPath._parts := [""; "9"; "x"; "y"];
                  WaterButlerPath._is_dir := true;
                  WaterButlerPath._is_root := false;
                  WaterButlerPath._prefix := true;
                  WaterButlerPath._suffix := true;
                  WaterButlerPath._path := "/9/x/y/" |} in
  let package := {| dryad.pm_body_text := ""; dryad.pm_doi := "doi:10.5061/dryad.4" |} in
  (∃ l, dryad.metadata "https://example.org/meta/" "https://example.org/file/"
          reports_present parse_header_line parts a_provider folder no_requests
        = (inr (dryad.Children l),
           {| requests := package_request "https://example.org/meta/" a_provider
                          :: children_requests "https://example.org/meta/"
                               "https://example.org/file/" (parts package);
              paths := ∅ |})
        ∧ map dryad.fm_doi l = ["doi:10.5061/dryad.4/1"; "doi:10.5061/dryad.4/2"])
  ∧ dryad.metadata "https://example.org/meta/" "https://example.org/file/"
      reports_present parse_header_line parts a_provider other no_requests
    = dryad.metadata "https://example.org/meta/" "https://example.org/file/"
        reports_present parse_header_line parts a_provider folder no_requests.
Proof.
  intros parts folder other package.
  apply (metadata_of_folder "https://example.org/meta/" "https://example.org/file/"
           reports_present parse_header_line parts a_provider folder other
           no_requests); try reflexivity; try discriminate.
  intros log rq. split; [constructor | now eexists].
Defined.

(** X22: against a server that serves every request, [download] sends four
    requests, the first for the bitstream of the formatted path as it is and
    the others, those of the metadata of the file, for the stripped path,
    and returns the first response as a stream with the size and the name of
    the metadata of the file. *)
Theorem download_served (meta_url file_url : string)
    (transport : list request → request → response)
    (parse_header : string → string * gmap string string)
    (name_of : dryad.DryadFileMetadata → string)
    (size_of : dryad.DryadFileMetadata → pyval)
    (self : DryadProvider) (path : WaterButlerPath.t) (w : world) :
  serves transport parse_header →
  ∃ m, dryad.download meta_url file_url transport parse_header name_of size_of
         self path w
       = (inr {| dryad.stream_resp :=
                   transport (requests w)
                     (bitstream_request meta_url (WaterButlerPath.path path));
                 dryad.stream_size := size_of m;
                 dryad.stream_name := name_of m |},
          {| requests := requests w
                         ++ bitstream_request meta_url (WaterButlerPath.path path)
                            :: file_requests meta_url file_url (WaterButlerPath.path path);
             paths := paths w |})
       ∧ dryad.fm_doi m
         = "doi:10.5061/dryad." +:+ Str.strip "/" (WaterButlerPath.path path).
Proof.
  intros Hs. unfold dryad.download. unfold bind at 1.
  unfold dryad.make_request at 1. rewrite bool_decide_eq_true_2 by apply Hs.
  unfold bind.
  match goal with
  | |- context [dryad._file_metadata _ _ _ _ _ _ ?w1] =>
      destruct (file_metadata_ok meta_url file_url transport parse_header self
                  (WaterButlerPath.path path) w1 Hs) as (m & -> & Hdoi)
  end.
  exists m. unfold ret, bitstream_request. cbn [requests paths].
  rewrite <- app_assoc. split; [reflexivity | assumption].
Qed.

Lemma download_served_example :
  let p := {| WaterButlerPath._orig_path := "/4/1";
              WaterButlerPath._parts := [""; "4"; "1"];
              WaterButlerPath._is_dir := false;
              WaterButlerPath._is_root := false;
              WaterButlerPath._prefix := true;
              WaterButlerPath._suffix := true;
              WaterButlerPath._path := "/4/1" |} in
  let get := λ url, {| req_method := "GET"; req_url := url |} in
  ∃ m, dryad.download "https://example.org/meta/" "https://example.org/file/"
         reports_present parse_header_line dryad.fm_file_name (λ _, PyNone)
         a_provider p no_requests
       = (inr {| dryad.stream_resp := reports_present [] (get "");
                 dryad.stream_size := PyNone;
                 dryad.stream_name := dryad.fm_file_name m |},
          {| requests := [get "https://example.org/meta//4/1/bitstream";
                          get "https://example.org/meta/4/1";
                          get "https://example.org/file/4/1/bitstream";
                          get "https://example.org/meta/4/1/bitstream"];
             paths := ∅ |})
       ∧ dryad.fm_doi m = "doi:10.5061/dryad.4/1".
Proof.
  intros p get.
  apply (download_served "https://example.org/meta/" "https://example.org/file/"
           reports_present parse_header_line dryad.fm_file_name (λ _, PyNone)
           a_provider p no_requests).
  intros log rq. split; [constructor | now eexists].
Defined.

(** *** Intra-copy, up to the upload *)

Lemma file_metadata_outcome (meta_url file_url : string)
    (transport : list request → request → response)
    (parse_header : string → string * gmap string string)
    (self : DryadProvider) (path : string) (w : world) :
  (∃ e w', dryad._file_metadata meta_url file_url transport parse_header self path w
           = (inl e, w')
           ∧ paths w' = paths w)
  ∨ (∃ m, dryad._file_metadata meta_url file_url transport parse_header self path w
          = (inr m, {| requests := requests w ++ file_requests meta_url file_url path;
                       paths := paths w |})).
Proof.
  unfold dryad._file_metadata, bind, dryad.make_request, file_requests.
  cbn [requests paths].
  destruct (bool_decide _); [|left; eauto].
  destruct (bool_decide _); [|left; eauto].
  destruct (bool_decide _); [|left; eauto].
  case_match; [|left; unfold raise; eauto].
  right. eexists. unfold ret. cbn [requests paths]. rewrite <- !app_assoc. reflexivity.
Qed.

(** X23: an intra-copy reaches the upload of the destination provider only
    after the four requests for the source have succeeded; every failure
    before (a source or destination that is no Path object, a refused
    request, a response without a file name) is raised with every Path
    object left as it was, whatever the destination provider is. *)
Theorem intra_copy_fails_or_uploads (meta_url file_url : string)
    (transport : list request → request → response)
    (parse_header : string → string * gmap string string)
    (name_of : dryad.DryadFileMetadata → string)
    (size_of : dryad.DryadFileMetadata → pyval)
    (self : DryadProvider) (src_path dest_path : ref) (w : world) :
  (∃ e w', paths w' = paths w
           ∧ ∀ dest_provider,
               dryad.intra_copy meta_url file_url transport parse_header name_of
                 size_of self dest_provider src_path dest_path w
               = (inl e, w'))
  ∨ (∃ src stream w1,
       paths w !! src_path = Some src
       ∧ is_Some (paths w !! dest_path)
       ∧ requests w1
         = requests w
           ++ bitstream_request meta_url (Str.strip "/" (WaterButlerPath.path src))
              :: file_requests meta_url file_url (WaterButlerPath.path src)
       ∧ ∀ dest_provider,
           dryad.intra_copy meta_url file_url transport parse_header name_of
             size_of self dest_provider src_path dest_path w
           = dryad.provider_upload dest_provider stream dest_path w1).
Proof.
  unfold dryad.intra_copy, dryad._do_intra_move_or_copy.
  destruct (paths w !! src_path) as [src|] eqn:Hsrc.
  2: { left. exists AttributeError, w. split; [reflexivity|]. intros dp.
       unfold bind, deref. now rewrite Hsrc. }
  set (rq := bitstream_request meta_url (Str.strip "/" (WaterButlerPath.path src))).
  destruct (bool_decide (status (transport (requests w) rq) ∈ [200; 206]%Z)) eqn:Hst.
  2: { left. exists (DownloadError (status (transport (requests w) rq))), (asked rq w).
       split; [reflexivity|]. intros dp.
       unfold bind, deref, dryad.make_request. rewrite Hsrc.
       fold (bitstream_request meta_url (Str.strip "/" (WaterButlerPath.path src))).
       fold rq. now rewrite Hst. }
  destruct (file_metadata_outcome meta_url file_url transport parse_header self
              (WaterButlerPath.path src) (asked rq w))
    as [(e & w' & Hfm & Hpaths)|(m & Hfm)].
  { left. exists e, w'. split; [exact Hpaths|]. intros dp.
    unfold bind, deref, dryad.make_request. rewrite Hsrc.
    fold (bitstream_request meta_url (Str.strip "/" (WaterButlerPath.path src))).
    fold rq. rewrite Hst. fold (asked rq w). cbn [paths asked]. rewrite Hsrc.
    now rewrite Hfm. }
  destruct (paths w !! dest_path) as [p|] eqn:Hdst.
  - right. exists src. eexists. eexists. split; [reflexivity|]. split; [eauto|].
    split; [|intros dp; unfold bind, deref, dryad.make_request; rewrite Hsrc;
             fold (bitstream_request meta_url (Str.strip "/" (WaterButlerPath.path src)));
             fold rq; rewrite Hst; fold (asked rq w); cbn [paths asked];
             rewrite Hsrc, Hfm; unfold dryad.rename; cbn [paths asked]; rewrite Hdst;
             reflexivity].
    cbn [requests asked]. now rewrite <- app_assoc.
  - left. eexists AttributeError, _. split; [|intros dp; unfold bind, deref,
             dryad.make_request; rewrite Hsrc;
             fold (bitstream_request meta_url (Str.strip "/" (WaterButlerPath.path src)));
             fold rq; rewrite Hst; fold (asked rq w); cbn [paths asked];
             rewrite Hsrc, Hfm; unfold dryad.rename; cbn [paths asked]; rewrite Hdst;
             reflexivity].
    reflexivity.
Qed.
